(** * strip.py: recursive removal of trailing newline bytes

    A shallow embedding of [src/strip.py] and the proofs of the properties
    its specification states.

    - File contents are Python [bytes]: lists of [Byte.byte]. Paths and
      messages are Python [str]: [string]. Python integers are [Z].
    - The trim loop is the [while] loop of the source, defined by
      well-founded recursion on the length of the content; the copy of the
      loop in the dry-run branch is a definition of its own.
    - The functions that touch the outside are computations in a state
      and exception monad [IO]: the state holds the files that [open]
      sees and the trace of what the program did (directories listed,
      files opened, lines printed), an exception is an [OSError].
    - The library functions that the source calls are modelled as far as
      the source uses them: [bytes] slicing and [endswith], [str]
      operations, [os.path.join] and [pathlib.Path] in their POSIX
      flavour, [os.walk] top-down over a finite directory tree without
      symbolic links, [str.lower] on the ASCII letters. [open] fails when
      the file is missing or may not be opened in the mode asked for. *)

From Equations Require Import Equations.
From Stdlib.Strings Require Import Byte Ascii String.
From stdpp Require Import base list strings gmap pretty.

Local Open Scope Z_scope.

(** ** Python [bytes] *)

Module PyBytes.

Abbreviation bytes := (list byte).

Definition LF : byte := x0a.
Definition CR : byte := x0d.

(** [a == b] on bytes objects. *)
Fixpoint eqb (a b : bytes) : bool :=
  match a, b with
  | [], [] => true
  | x :: a', y :: b' => Byte.eqb x y && eqb a' b'
  | _, _ => false
  end.

(** [content[-n:]] for [n > 0]: the last [n] bytes, or all of them when
    there are fewer. *)
Definition last_n (n : nat) (content : bytes) : bytes :=
  drop (length content - n) content.

(** [content[:-n]] for [n > 0]: all but the last [n] bytes, empty when
    there are fewer. *)
Definition drop_last (n : nat) (content : bytes) : bytes :=
  take (length content - n) content.

(** [content.endswith(suffix)]. *)
Definition endswith (content suffix : bytes) : bool :=
  (length suffix <=? length content)%nat && eqb (last_n (length suffix) content) suffix.

(** [x in (a, b)] for a two-element tuple of bytes objects. *)
Definition in_pair (x a b : bytes) : bool := eqb x a || eqb x b.

(** Truth value of a bytes object: non-empty. *)
Definition truthy (content : bytes) : bool :=
  match content with [] => false | _ => true end.

End PyBytes.

Import PyBytes.

(** ** The Trimmer: the loop of [remove_trailing_newlines] (lines 34-41) *)

Definition inspect {A} (a : A) : {b : A | a = b} := exist _ a eq_refl.

(** Loop test: [content and content[-1:] in (b'\n', b'\r')]. *)
Definition loop_cond (content : bytes) : bool :=
  truthy content && in_pair (last_n 1 content) [LF] [CR].

(** Loop body: the [if]/[elif]/[elif] chain; when no branch applies the
    content is left as it is. *)
Definition loop_body (content : bytes) : bytes :=
  if endswith content [CR; LF] then drop_last 2 content
  else if endswith content [LF] then drop_last 1 content
  else if endswith content [CR] then drop_last 1 content
  else content.

(** *** Facts on the byte operations needed for termination *)

Lemma eqb_eq (a b : bytes) : PyBytes.eqb a b = true <-> a = b.
Proof.
  revert b. induction a as [|x a IH]; intros [|y b]; simpl; try (split; congruence).
  rewrite andb_true_iff, IH. split.
  - intros [Hxy ->]. apply Byte.byte_dec_bl in Hxy. congruence.
  - intros [= -> ->]. split; [apply Byte.byte_dec_lb|]; reflexivity.
Qed.

Lemma eqb_refl (a : bytes) : PyBytes.eqb a a = true.
Proof. apply eqb_eq. reflexivity. Qed.

Lemma last_n_app (pre suf : bytes) : last_n (length suf) (pre ++ suf) = suf.
Proof.
  unfold last_n. rewrite length_app.
  replace (length pre + length suf - length suf)%nat with (length pre) by lia.
  apply drop_app_length.
Qed.

Lemma drop_last_app (pre suf : bytes) : drop_last (length suf) (pre ++ suf) = pre.
Proof.
  unfold drop_last. rewrite length_app.
  replace (length pre + length suf - length suf)%nat with (length pre) by lia.
  apply take_app_length.
Qed.

Lemma endswith_app (pre suf suf' : bytes) :
  length suf = length suf' ->
  endswith (pre ++ suf) suf' = PyBytes.eqb suf suf'.
Proof.
  intros Hlen. unfold endswith. rewrite <- Hlen, last_n_app, length_app.
  replace (length suf <=? length pre + length suf)%nat with true; [reflexivity|].
  symmetry. apply Nat.leb_le. lia.
Qed.

Lemma endswith_spec (content suf : bytes) :
  endswith content suf = true <-> exists pre, content = pre ++ suf.
Proof.
  split.
  - unfold endswith, last_n. intros [Hle Heq%eqb_eq]%andb_true_iff.
    exists (take (length content - length suf) content).
    rewrite <- Heq at 2. symmetry. apply take_drop.
  - intros [pre ->]. rewrite endswith_app by reflexivity. apply eqb_refl.
Qed.

(** A content that passes the loop test ends in LF or CR. *)
Lemma loop_cond_true (content : bytes) :
  loop_cond content = true <->
  exists pre c, content = pre ++ [c] /\ (c = LF \/ c = CR).
Proof.
  unfold loop_cond, in_pair. split.
  - intros [Hne Hin]%andb_true_iff.
    destruct (exists_last (l := content)) as (pre & c & ->).
    { intros ->. discriminate. }
    exists pre, c. split; [reflexivity|].
    change 1%nat with (length [c]) in Hin. rewrite last_n_app in Hin.
    apply orb_true_iff in Hin as [H%eqb_eq|H%eqb_eq]; injection H; auto.
  - intros (pre & c & -> & Hc).
    change 1%nat with (length [c]). rewrite last_n_app.
    apply andb_true_iff. split.
    + destruct pre; reflexivity.
    + destruct Hc as [-> | ->]; reflexivity.
Qed.

Lemma loop_cond_false (content : bytes) :
  loop_cond content = false <->
  content = [] \/ exists pre c, content = pre ++ [c] /\ c <> LF /\ c <> CR.
Proof.
  split.
  - intros Hf. destruct content as [|x l] using rev_ind; [left; reflexivity|right].
    exists l, x. split; [reflexivity|].
    assert (~ (x = LF \/ x = CR)) as Hx; [|tauto].
    intros Hx. assert (loop_cond (l ++ [x]) = true) as Ht
      by (apply loop_cond_true; eauto).
    congruence.
  - intros Hc. destruct (loop_cond content) eqn:Ht; [|reflexivity].
    apply loop_cond_true in Ht as (pre & c & -> & Hc').
    destruct Hc as [Hnil | (pre' & c' & Heq & Hn1 & Hn2)].
    + destruct pre; discriminate.
    + apply app_inj_tail in Heq as [_ <-]. tauto.
Qed.

(** The body on a content ending in CR LF, in LF alone, and in CR. *)
Lemma loop_body_crlf (pre : bytes) : loop_body (pre ++ [CR; LF]) = pre.
Proof.
  unfold loop_body. rewrite endswith_app by reflexivity. simpl.
  apply (drop_last_app pre [CR; LF]).
Qed.

Lemma loop_body_cr (pre : bytes) : loop_body (pre ++ [CR]) = pre.
Proof.
  unfold loop_body.
  replace (endswith (pre ++ [CR]) [CR; LF]) with false.
  - rewrite !endswith_app by reflexivity. simpl. apply (drop_last_app pre [CR]).
  - symmetry. apply not_true_is_false. intros [q Hq]%endswith_spec.
    change (q ++ [CR; LF]) with (q ++ [CR] ++ [LF]) in Hq.
    rewrite app_assoc in Hq. apply app_inj_tail in Hq as [_ Hq]. discriminate.
Qed.

Lemma loop_body_lf (pre : bytes) :
  (forall q, pre <> q ++ [CR]) -> loop_body (pre ++ [LF]) = pre.
Proof.
  intros Hpre. unfold loop_body.
  replace (endswith (pre ++ [LF]) [CR; LF]) with false.
  - rewrite !endswith_app by reflexivity. simpl. apply (drop_last_app pre [LF]).
  - symmetry. apply not_true_is_false. intros [q Hq]%endswith_spec.
    change (q ++ [CR; LF]) with (q ++ [CR] ++ [LF]) in Hq.
    rewrite app_assoc in Hq. apply app_inj_tail in Hq as [Hq _].
    exact (Hpre q Hq).
Qed.

(** Every iteration removes one byte or two. *)
Lemma loop_body_shrinks (content : bytes) :
  loop_cond content = true ->
  (length content = length (loop_body content) + 1 \/
   length content = length (loop_body content) + 2)%nat.
Proof.
  intros (pre & c & -> & Hc)%loop_cond_true.
  destruct Hc as [-> | ->].
  - destruct pre as [|x q _] using rev_ind.
    + left. rewrite loop_body_lf; [rewrite length_app; simpl; lia|].
      intros [|? ?]; discriminate.
    + destruct (Byte.byte_eq_dec x CR) as [-> | Hx].
      * right. rewrite <- app_assoc. simpl. rewrite loop_body_crlf.
        rewrite length_app. simpl. lia.
      * left. rewrite loop_body_lf; [rewrite !length_app; simpl; lia|].
        intros q' Hq. apply app_inj_tail in Hq as [_ Hq]. contradiction.
  - left. rewrite loop_body_cr, length_app. simpl. lia.
Qed.

Lemma loop_body_lt (content : bytes) :
  loop_cond content = true ->
  (length (loop_body content) < length content)%nat.
Proof. intros H. destruct (loop_body_shrinks content H); lia. Qed.

(** The [while] loop of [remove_trailing_newlines]. *)
Equations trim_loop (content : bytes) : bytes by wf (length content) lt :=
  trim_loop content with inspect (loop_cond content) := {
    | exist _ true Hc => trim_loop (loop_body content)
    | exist _ false _ => content }.
Next Obligation. intros content Hc _. apply loop_body_lt. exact Hc. Qed.

(** The same loop as written a second time in the dry-run branch of
    [process_directory] (lines 140-146), on [temp_content]. *)
Definition dry_loop_cond (temp_content : bytes) : bool :=
  truthy temp_content && in_pair (last_n 1 temp_content) [LF] [CR].

Definition dry_loop_body (temp_content : bytes) : bytes :=
  if endswith temp_content [CR; LF] then drop_last 2 temp_content
  else if endswith temp_content [LF] then drop_last 1 temp_content
  else if endswith temp_content [CR] then drop_last 1 temp_content
  else temp_content.

Equations dry_run_loop (temp_content : bytes) : bytes
  by wf (length temp_content) lt :=
  dry_run_loop temp_content with inspect (dry_loop_cond temp_content) := {
    | exist _ true Hc => dry_run_loop (dry_loop_body temp_content)
    | exist _ false _ => temp_content }.
Next Obligation. intros content Hc _. apply loop_body_lt. exact Hc. Qed.

(** A [while cond: content = body(content)] loop run step by step with a
    bound on the number of iterations; [None] when the bound is reached
    before the test fails. *)
Fixpoint while_fuel (cond : bytes -> bool) (body : bytes -> bytes)
    (fuel : nat) (content : bytes) : option bytes :=
  if cond content then
    match fuel with
    | O => None
    | S fuel' => while_fuel cond body fuel' (body content)
    end
  else Some content.

(** [len(content)] as a Python integer. *)
Definition len (content : bytes) : Z := Z.of_nat (length content).

(** Lines 31-42: [bytes_removed = original_length - len(content)]. *)
Definition bytes_removed (content : bytes) : Z :=
  let original_length := len content in
  let content := trim_loop content in
  original_length - len content.

(** Lines 137-148: [bytes_would_remove = original_length - len(temp_content)]. *)
Definition bytes_would_remove (content : bytes) : Z :=
  let original_length := len content in
  let temp_content := content in
  let temp_content := dry_run_loop temp_content in
  original_length - len temp_content.

(** The Trimmer's contract [trim(bytes) -> (newBytes, bytesRemoved)]: the
    content [remove_trailing_newlines] writes back and the count it
    computes. *)
Definition trim (content : bytes) : bytes * Z :=
  (trim_loop content, bytes_removed content).

Definition newBytes (r : bytes * Z) : bytes := fst r.
Definition bytesRemoved (r : bytes * Z) : Z := snd r.

(** ** Python [str] *)

Module PyStr.

Local Open Scope string_scope.

(** [s.startswith(prefix)]. *)
Definition startswith (s prefix : string) : bool := String.prefix prefix s.

(** [pattern in s]: [pattern] occurs in [s] as a substring. *)
Fixpoint contains (pattern s : string) : bool :=
  String.prefix pattern s ||
  match s with
  | EmptyString => false
  | String _ s' => contains pattern s'
  end.

Definition lower_ascii (c : ascii) : ascii :=
  let n := nat_of_ascii c in
  if ((65 <=? n) && (n <=? 90))%nat then ascii_of_nat (n + 32) else c.

(** [s.lower()], on the ASCII letters. *)
Fixpoint lower (s : string) : string :=
  match s with
  | EmptyString => EmptyString
  | String c s' => String (lower_ascii c) (lower s')
  end.

(** [s.rfind(c)]: index of the last occurrence of [c], or [-1]. *)
Fixpoint rfind (c : ascii) (s : string) : Z :=
  match s with
  | EmptyString => -1
  | String x s' =>
      let r := rfind c s' in
      if (0 <=? r)%Z then r + 1 else if Ascii.eqb x c then 0 else -1
  end.

(** [s[i:]] for [i >= 0]. *)
Fixpoint slice_from (i : nat) (s : string) : string :=
  match i, s with
  | O, _ => s
  | S i', String _ s' => slice_from i' s'
  | S _, EmptyString => EmptyString
  end.

(** [s.split(sep)] for a one-character separator. *)
Fixpoint split (sep : ascii) (s : string) : list string :=
  match s with
  | EmptyString => [EmptyString]
  | String c s' =>
      if Ascii.eqb c sep then EmptyString :: split sep s'
      else match split sep s' with
           | [] => [String c EmptyString]
           | h :: t => String c h :: t
           end
  end.

(** [sep.join(parts)]. *)
Fixpoint join (sep : string) (parts : list string) : string :=
  match parts with
  | [] => EmptyString
  | [x] => x
  | x :: rest => x +:+ sep +:+ join sep rest
  end.

(** [s.endswith(suffix)] for a one-character suffix. *)
Fixpoint endswith_char (s : string) (c : ascii) : bool :=
  match s with
  | EmptyString => false
  | String x EmptyString => Ascii.eqb x c
  | String _ s' => endswith_char s' c
  end.

End PyStr.

(** ** [posixpath] and [pathlib] (POSIX flavour) *)

Module PyPath.

Local Open Scope string_scope.

Definition sep : ascii := "/"%char.

(** [s[:1] == sep]. *)
Definition starts_sep (s : string) : bool :=
  match s with
  | String c _ => Ascii.eqb c sep
  | EmptyString => false
  end.

(** [os.path.join(a, b)]. *)
Definition os_path_join (a b : string) : string :=
  if starts_sep b then b
  else if String.eqb a "" || PyStr.endswith_char a sep then a +:+ b
  else a +:+ "/" +:+ b.

(** A parsed pure path: the root (empty, one slash or two) and the
    components after it. *)
Record PurePath := { anchor : string; tail : list string }.

(** [posixpath.splitroot]: no root, or one slash, or exactly two. *)
Definition splitroot (p : string) : string * string :=
  if negb (starts_sep p) then ("", p)
  else if negb (starts_sep (PyStr.slice_from 1 p)) || starts_sep (PyStr.slice_from 2 p)
       then ("/", PyStr.slice_from 1 p)
       else ("//", PyStr.slice_from 2 p).

Definition keep_part (x : string) : bool :=
  negb (String.eqb x "") && negb (String.eqb x ".").

(** [Path(s)]: split off the root, split the rest on the separator and
    drop the empty and the [.] components. *)
Definition Path (s : string) : PurePath :=
  let '(root, rel) := splitroot s in
  {| anchor := root; tail := List.filter keep_part (PyStr.split sep rel) |}.

(** [str(path)]. *)
Definition str (p : PurePath) : string :=
  let s := anchor p +:+ PyStr.join "/" (tail p) in
  if String.eqb s "" then "." else s.

(** [path / key]: a rooted [key] replaces the path, otherwise its
    components are appended. *)
Definition truediv (p : PurePath) (key : string) : PurePath :=
  let q := Path key in
  if String.eqb (anchor q) "" then {| anchor := anchor p; tail := tail p ++ tail q |}
  else q.

(** [path.name]: the last component, empty when there is none. *)
Definition name (p : PurePath) : string := List.last (tail p) "".

(** [path.suffix]: the part of the name from its last dot on, when that
    dot is neither the first nor the last character of the name. *)
Definition suffix (p : PurePath) : string :=
  let name := name p in
  let i := PyStr.rfind "." name in
  if ((0 <? i) && (i <? Z.of_nat (String.length name) - 1))%Z
  then PyStr.slice_from (Z.to_nat i) name
  else "".

End PyPath.

Import PyPath.

(** ** The environment: files, streams and exceptions *)

Inductive errno := ENOENT | EACCES.

(** An [OSError] ([IOError] is the same class): its cause and the path. *)
Record OSError := { os_errno : errno; os_filename : string }.

Definition strerror (e : errno) : string :=
  match e with
  | ENOENT => "[Errno 2] No such file or directory"
  | EACCES => "[Errno 13] Permission denied"
  end.

(** [str(e)]. *)
Definition OSError_str (e : OSError) : string :=
  strerror (os_errno e) +:+ ": '" +:+ os_filename e +:+ "'".

(** What [open] finds at a path: the content and whether the file may be
    opened for reading and for writing. A path with no entry does not
    exist. *)
Record file := { data : bytes; readable : bool; writable : bool }.

(** What the program does to the outside, in order. *)
Inductive event :=
| Scandir (path : string)
| OpenRead (path : string)
| OpenWrite (path : string)
| Stdout (line : string)
| Stderr (line : string).

Record world := { fs : gmap string file; trace : list event }.

Inductive outcome (A : Type) :=
| Returned (a : A)
| Raised (e : OSError).
Arguments Returned {A} a.
Arguments Raised {A} e.

(** Computations that read and change the world and may raise. *)
Definition IO (A : Type) : Type := world -> world * outcome A.

#[export] Instance IO_ret : MRet IO := fun A a w => (w, Returned a).

#[export] Instance IO_bind : MBind IO := fun A B f m w =>
  match m w with
  | (w', Returned a) => f a w'
  | (w', Raised e) => (w', Raised e)
  end.

(** [try: body except (IOError, OSError) as e: handler(e)]. *)
Definition try_except {A} (body : IO A) (handler : OSError -> IO A) : IO A :=
  fun w =>
    match body w with
    | (w', Returned a) => (w', Returned a)
    | (w', Raised e) => handler e w'
    end.

Definition log (ev : event) (w : world) : world :=
  {| fs := fs w; trace := trace w ++ [ev] |}.

Definition emit (ev : event) : IO unit := fun w => (log ev w, Returned tt).

(** [print(line)] and [print(line, file=sys.stderr)]. *)
Definition print (line : string) : IO unit := emit (Stdout line).
Definition print_err (line : string) : IO unit := emit (Stderr line).

(** [with open(path, 'rb') as f: content = f.read()]. *)
Definition read_binary (path : PurePath) : IO bytes :=
  fun w =>
    let w := log (OpenRead (str path)) w in
    match fs w !! str path with
    | None => (w, Raised {| os_errno := ENOENT; os_filename := str path |})
    | Some f =>
        if readable f then (w, Returned (data f))
        else (w, Raised {| os_errno := EACCES; os_filename := str path |})
    end.

(** [with open(path, 'wb') as f: f.write(content)]: the content replaces
    what the file held; a missing file is created. *)
Definition write_binary (path : PurePath) (content : bytes) : IO unit :=
  fun w =>
    let w := log (OpenWrite (str path)) w in
    match fs w !! str path with
    | None =>
        ({| fs := <[str path := {| data := content; readable := true; writable := true |}]> (fs w);
            trace := trace w |}, Returned tt)
    | Some f =>
        if writable f
        then ({| fs := <[str path := {| data := content; readable := readable f;
                                        writable := true |}]> (fs w);
                 trace := trace w |}, Returned tt)
        else (w, Raised {| os_errno := EACCES; os_filename := str path |})
    end.

#[local] Unset Elimination Schemes.

(** A directory as [os.scandir] lists it: the names of its files and its
    subdirectories with their names. *)
Inductive dirtree :=
| DirTree (files : list string) (subdirs : list (string * dirtree)).

#[local] Set Elimination Schemes.

(** [for x in xs: s = step(x, s)]: a loop over a list that threads the
    state [s]; an exception raised by a step ends the loop. *)
Fixpoint for_each {S X : Type} (xs : list X) (step : X -> S -> IO S) (s : S) : IO S :=
  match xs with
  | [] => mret s
  | x :: rest => s' ← step x s; for_each rest step s'
  end.

(** The subdirectory called [dirname] among the entries of a directory. *)
Definition find_subdir {B : Type} (dirname : string) (found : dirtree -> B) (missing : B)
  : list (string * dirtree) -> B :=
  fix find (entries : list (string * dirtree)) : B :=
    match entries with
    | [] => missing
    | (n, sub) :: entries' =>
        if String.eqb n dirname then found sub else find entries'
    end.

(** [for root, dirs, files in os.walk(top): body], top-down. The body runs
    on each triple and hands back the list [dirs] as it left it: the walk
    descends into the names that are still in that list, in its order. A
    name that is no subdirectory is passed over. *)
Fixpoint os_walk {S : Type}
    (body : string -> list string -> list string -> S -> IO (S * list string))
    (top : string) (t : dirtree) (s : S) {struct t} : IO S :=
  match t with
  | DirTree files subdirs =>
      emit (Scandir top) ;;
      '(s1, dirs) ← body top (map fst subdirs) files s;
      for_each dirs
        (fun dirname s =>
           find_subdir dirname
             (fun sub => os_walk body (os_path_join top dirname) sub s)
             (mret s) subdirs)
        s1
  end.

(** ** The Trimmer on a file: [remove_trailing_newlines] *)

Definition remove_trailing_newlines (file_path : PurePath) : IO (bool * Z) :=
  try_except
    (content ← read_binary file_path;
     if negb (truthy content) then mret (false, 0)
     else
       let original_length := len content in
       let content := trim_loop content in
       let bytes_removed := original_length - len content in
       if bytes_removed >? 0 then
         write_binary file_path content ;;
         mret (true, bytes_removed)
       else mret (false, 0))
    (fun e =>
       print_err ("Error processing " +:+ str file_path +:+ ": " +:+ OSError_str e) ;;
       mret (false, 0)).

(** ** The Filter: [should_process_file] *)

Definition binary_extensions : gset string :=
  list_to_set
    [".exe"; ".dll"; ".so"; ".dylib"; ".bin"; ".obj"; ".o";
     ".jpg"; ".jpeg"; ".png"; ".gif"; ".bmp"; ".ico"; ".svg";
     ".mp3"; ".mp4"; ".avi"; ".mov"; ".wav"; ".flac";
     ".zip"; ".tar"; ".gz"; ".rar"; ".7z";
     ".pdf"; ".doc"; ".docx"; ".xls"; ".xlsx"; ".ppt"; ".pptx"].

(** Truth value of an optional set and of an optional list: [None] and the
    empty container are false. *)
Definition set_truthy (extensions : option (gset string)) : bool :=
  match extensions with
  | None => false
  | Some exts => negb (bool_decide (exts = ∅))
  end.

Definition list_truthy (patterns : option (list string)) : bool :=
  match patterns with
  | None | Some [] => false
  | Some _ => true
  end.

Definition in_extensions (x : string) (extensions : option (gset string)) : bool :=
  match extensions with
  | None => false
  | Some exts => bool_decide (x ∈ exts)
  end.

(** The [for pattern in exclude_patterns] loop: true when some pattern is
    found in [file_str] (the function then returns [False]). *)
Fixpoint exclude_loop (patterns : list string) (file_str : string) : bool :=
  match patterns with
  | [] => false
  | pattern :: rest =>
      if PyStr.contains pattern file_str then true else exclude_loop rest file_str
  end.

Definition should_process_file (file_path : PurePath)
    (extensions : option (gset string)) (exclude_patterns : option (list string)) : bool :=
  if set_truthy extensions
     && negb (in_extensions (PyStr.lower (suffix file_path)) extensions)
  then false
  else if list_truthy exclude_patterns
          && exclude_loop (default [] exclude_patterns) (str file_path)
  then false
  else if bool_decide (PyStr.lower (suffix file_path) ∈ binary_extensions)
  then false
  else true.

(** ** The Walker: [process_directory] *)

(** The three running totals. *)
Record counters := {
  total_files : Z;
  modified_files : Z;
  total_bytes_removed : Z }.

Definition count_file (c : counters) : counters :=
  {| total_files := total_files c + 1;
     modified_files := modified_files c;
     total_bytes_removed := total_bytes_removed c |}.

Definition count_modified (c : counters) (n : Z) : counters :=
  {| total_files := total_files c;
     modified_files := modified_files c + 1;
     total_bytes_removed := total_bytes_removed c + n |}.

Section Walker.

Variable extensions : option (gset string).
Variable exclude_patterns : option (list string).
Variable dry_run : bool.

(** Lines 131-155: the dry-run branch for one file. *)
Definition dry_run_file (file_path : PurePath) (c : counters) : IO counters :=
  try_except
    (content ← read_binary file_path;
     if truthy content then
       let original_length := len content in
       let temp_content := content in
       let temp_content := dry_run_loop temp_content in
       let bytes_would_remove := original_length - len temp_content in
       if bytes_would_remove >? 0 then
         print ("WOULD MODIFY: " +:+ str file_path +:+ " ("
                +:+ pretty bytes_would_remove +:+ " bytes)") ;;
         mret (count_modified c bytes_would_remove)
       else mret c
     else mret c)
    (fun e =>
       print_err ("Error reading " +:+ str file_path +:+ ": " +:+ OSError_str e) ;;
       mret c).

(** Lines 157-163: the apply branch for one file. *)
Definition apply_file (file_path : PurePath) (c : counters) : IO counters :=
  '(was_modified, bytes_removed) ← remove_trailing_newlines file_path;
  if was_modified : bool then
    print ("Modified: " +:+ str file_path +:+ " ("
           +:+ pretty bytes_removed +:+ " bytes removed)") ;;
    mret (count_modified c bytes_removed)
  else mret c.

(** Lines 119-163: one turn of [for file in files]. *)
Definition process_file (root file : string) (c : counters) : IO counters :=
  let file_path := truediv (Path root) file in
  if PyStr.startswith file "." then mret c
  else if negb (should_process_file file_path extensions exclude_patterns) then mret c
  else
    let c := count_file c in
    if dry_run then dry_run_file file_path c else apply_file file_path c.

(** [for file in files: ...]. *)
Definition for_files (root : string) (files : list string) (c : counters) : IO counters :=
  for_each files (process_file root) c.

(** [dirs[:] = [d for d in dirs if not d.startswith('.')]]. *)
Definition prune_hidden (dirs : list string) : list string :=
  List.filter (fun d => negb (PyStr.startswith d ".")) dirs.

(** The body of [for root, dirs, files in os.walk(directory)]. *)
Definition walk_body (root : string) (dirs files : list string) (c : counters)
  : IO (counters * list string) :=
  let dirs := prune_hidden dirs in
  c' ← for_files root files c;
  mret (c', dirs).

(** [process_directory], on the directory tree found at [directory]; the
    result is the three totals that the summary prints. *)
Definition process_directory (directory : PurePath) (t : dirtree) : IO counters :=
  let c := {| total_files := 0; modified_files := 0; total_bytes_removed := 0 |} in
  print ("Processing directory: " +:+ str directory) ;;
  (if dry_run then print "DRY RUN MODE - No files will be modified" else mret tt) ;;
  print "" ;;
  c ← os_walk walk_body (str directory) t c;
  print (String "010" "Summary:") ;;
  print ("Files processed: " +:+ pretty (total_files c)) ;;
  print ("Files modified: " +:+ pretty (modified_files c)) ;;
  print ("Total bytes removed: " +:+ pretty (total_bytes_removed c)) ;;
  mret c.

End Walker.

Local Open Scope string_scope.

(** ** The driver: [main] *)

(** The result of [parser.parse_args()]: the directory (['.'] when none
    is given), the extensions ([None] when the option is absent), the
    exclude patterns and the dry-run flag. *)
Record Args := {
  args_directory : string;
  args_extensions : option (list string);
  args_exclude : list string;
  args_dry_run : bool }.

(** [ext.lower() if ext.startswith('.') else f'.{ext.lower()}']. *)
Definition normalize_extension (ext : string) : string :=
  if PyStr.startswith ext "." then PyStr.lower ext else "." +:+ PyStr.lower ext.

(** Lines 223-226: the set comprehension over [args.extensions], or
    [None] when the option is absent (or empty). *)
Definition main_extensions (args : Args) : option (gset string) :=
  match args_extensions args with
  | None | Some [] => None
  | Some exts => Some (list_to_set (map normalize_extension exts))
  end.

(** What is found at the path given as [directory]: nothing
    ([directory.exists()] is false), something that is no directory
    ([directory.is_dir()] is false), or a directory. *)
Inductive path_kind :=
| NoEntry
| NotADirectory
| IsDirectory (t : dirtree).

(** How [main] ends: [sys.exit(code)], a normal return, or an [OSError]
    that nothing catches. *)
Inductive main_result :=
| SystemExit (code : Z)
| Completed
| Propagated (e : OSError).

(** [main], from the parsed arguments on (lines 212-229). The interrupt
    handler of lines 230-232 has no counterpart: nothing here raises
    [KeyboardInterrupt]. *)
Definition main (args : Args) (found : path_kind) (w : world) : world * main_result :=
  let directory := Path (args_directory args) in
  match found with
  | NoEntry =>
      (log (Stderr ("Error: Directory '" +:+ str directory +:+ "' does not exist")) w,
       SystemExit 1)
  | NotADirectory =>
      (log (Stderr ("Error: '" +:+ str directory +:+ "' is not a directory")) w,
       SystemExit 1)
  | IsDirectory t =>
      let extensions := main_extensions args in
      match process_directory extensions (Some (args_exclude args)) (args_dry_run args)
              directory t w with
      | (w', Returned _) => (w', Completed)
      | (w', Raised e) => (w', Propagated e)
      end
  end.

Local Close Scope string_scope.

(** ** Notions used to state the properties *)

Local Open Scope string_scope.

(** The separator occurs in the string. *)
Fixpoint has_sep (s : string) : bool :=
  match s with
  | EmptyString => false
  | String c s' => Ascii.eqb c sep || has_sep s'
  end.

(** Number of separators a string starts with. *)
Fixpoint leading (s : string) : nat :=
  match s with
  | String c s' => if Ascii.eqb c sep then S (leading s') else 0
  | EmptyString => 0
  end.

(** The root that [splitroot] finds behind that many separators. *)
Definition anchor_of (k : nat) : string :=
  match k with
  | 0 => ""
  | 2 => "//"
  | _ => "/"
  end%nat.

(** A name as a directory listing gives it: one path component. *)
Definition valid_name (n : string) : bool := negb (has_sep n).

(** A component that [Path] keeps. *)
Definition component (c : string) : Prop :=
  keep_part c = true /\ has_sep c = false.

(** A path as [Path] builds it. *)
Definition wf_path (p : PurePath) : Prop :=
  (anchor p = "" \/ anchor p = "/" \/ anchor p = "//") /\
  Forall component (tail p).

(** The line that the [except] clauses print. *)
Definition error_line (what : string) (file_path : PurePath) (e : OSError) : string :=
  what +:+ str file_path +:+ ": " +:+ OSError_str e.

(** The error that opening the file for reading raises, if any. *)
Definition read_error (w : world) (file_path : PurePath) : option OSError :=
  match fs w !! str file_path with
  | None => Some {| os_errno := ENOENT; os_filename := str file_path |}
  | Some f =>
      if readable f then None
      else Some {| os_errno := EACCES; os_filename := str file_path |}
  end.

(** The path an event is about, if any. *)
Definition event_path (ev : event) : option string :=
  match ev with
  | Scandir p | OpenRead p | OpenWrite p => Some p
  | Stdout _ | Stderr _ => None
  end.

(** The computation only adds events that satisfy [P] to the trace. *)
Definition emits {A} (P : event -> Prop) (m : IO A) : Prop :=
  forall w, exists evs, trace (m w).1 = (trace w ++ evs)%list /\ Forall P evs.

(** The computation returns: it raises nothing. *)
Definition total {A} (m : IO A) : Prop :=
  forall w, exists a, (m w).2 = Returned a.

(** The event names no path, or names [p]. *)
Definition about (p : PurePath) (ev : event) : Prop :=
  event_path ev = None \/ event_path ev = Some (str p).

(** Every name in the tree is a single path component. *)
Fixpoint valid_tree (t : dirtree) : bool :=
  match t with
  | DirTree files subdirs =>
      forallb valid_name files
      && forallb (fun entry => valid_name (fst entry) && valid_tree (snd entry)) subdirs
  end.

(** From a state that satisfies [pre] the computation returns, in a state
    that satisfies [post]. *)
Definition hoare {A} (pre : world -> Prop) (m : IO A) (post : A -> world -> Prop) : Prop :=
  forall w, pre w -> exists w' a, m w = (w', Returned a) /\ post a w'.

(** The root that [os.walk] reports after descending from [top] through
    the directories [ds]. *)
Definition walk_root (top : string) (ds : list string) : string :=
  fold_left os_path_join ds top.

(** The totals at the start of a run. *)
Definition no_counts : counters :=
  {| total_files := 0; modified_files := 0; total_bytes_removed := 0 |}.

(** The event is the opening of a file. *)
Definition is_open (ev : event) : bool :=
  match ev with
  | OpenRead _ | OpenWrite _ => true
  | _ => false
  end.

(** The world at the start of a run: the files, and nothing done yet. *)
Definition start (store : gmap string file) : world := {| fs := store; trace := [] |}.

(** A name that starts with a dot. *)
Definition hidden (name : string) : bool := PyStr.startswith name ".".

(** The run touched the path: it listed it as a directory or opened it as
    a file. *)
Definition visited (w : world) (p : string) : Prop :=
  exists ev, In ev (trace w) /\ event_path ev = Some p.

(** The path lies under a directory whose name starts with a dot. *)
Definition under_hidden_dir (p : string) : Prop :=
  exists d, In d (removelast (tail (Path p))) /\ hidden d = true.

(** The path is [dir] followed by components none of which is hidden. *)
Definition visible_below (dir : PurePath) (p : string) : Prop :=
  exists rel,
    Path p = {| anchor := anchor dir; tail := tail dir ++ rel |} /\
    Forall (fun d => hidden d = false) rel.

(** An ordinary file with that content. *)
Definition file_of (content : bytes) : file :=
  {| data := content; readable := true; writable := true |}.

(** Processing the file at [file_path] hits the I/O error [e]: the file
    cannot be opened for reading, or (when files are rewritten) it has
    trailing newline bytes and cannot be opened for writing. *)
Inductive io_failure (dry_run : bool) (w : world) (file_path : PurePath) : OSError -> Prop :=
| read_fails e :
    read_error w file_path = Some e ->
    io_failure dry_run w file_path e
| write_fails f :
    dry_run = false ->
    fs w !! str file_path = Some f -> readable f = true -> writable f = false ->
    0 < bytes_removed (data f) ->
    io_failure dry_run w file_path {| os_errno := EACCES; os_filename := str file_path |}.

(** The text before the path in the error line of each mode. *)
Definition error_prefix (dry_run : bool) : string :=
  if dry_run then "Error reading " else "Error processing ".


(** *** Notions for the further properties *)

(** A byte that the loop strips. *)
Definition newline_byte (c : byte) : Prop := c = LF \/ c = CR.

(** The file passes the tests of the loop body: its name is not hidden and
    the Filter accepts its path. *)
Definition qualifies (exts : option (gset string)) (excl : option (list string))
    (root file : string) : bool :=
  negb (PyStr.startswith file ".")
  && should_process_file (truediv (Path root) file) exts excl.

(** The file as [write_binary] leaves it. *)
Definition trimmed_file (f : file) : file :=
  {| data := trim_loop (data f); readable := readable f; writable := true |}.

(** What one turn of [for file in files] does, case by case. *)
Inductive file_step (exts : option (gset string)) (excl : option (list string))
    (dry : bool) (root file : string) (c : counters) (w : world)
  : world -> counters -> Prop :=
| step_skipped :
    qualifies exts excl root file = false ->
    file_step exts excl dry root file c w w c
| step_read_error e :
    qualifies exts excl root file = true ->
    read_error w (truediv (Path root) file) = Some e ->
    file_step exts excl dry root file c w
      (log (Stderr (error_line (error_prefix dry) (truediv (Path root) file) e))
         (log (OpenRead (str (truediv (Path root) file))) w))
      (count_file c)
| step_clean f :
    qualifies exts excl root file = true ->
    fs w !! str (truediv (Path root) file) = Some f -> readable f = true ->
    bytes_removed (data f) = 0 ->
    file_step exts excl dry root file c w
      (log (OpenRead (str (truediv (Path root) file))) w) (count_file c)
| step_would_modify f :
    qualifies exts excl root file = true -> dry = true ->
    fs w !! str (truediv (Path root) file) = Some f -> readable f = true ->
    0 < bytes_removed (data f) ->
    file_step exts excl dry root file c w
      (log (Stdout ("WOULD MODIFY: " +:+ str (truediv (Path root) file) +:+ " ("
                    +:+ pretty (bytes_removed (data f)) +:+ " bytes)"))
         (log (OpenRead (str (truediv (Path root) file))) w))
      (count_modified (count_file c) (bytes_removed (data f)))
| step_modified f :
    qualifies exts excl root file = true -> dry = false ->
    fs w !! str (truediv (Path root) file) = Some f -> readable f = true ->
    writable f = true -> 0 < bytes_removed (data f) ->
    file_step exts excl dry root file c w
      {| fs := <[str (truediv (Path root) file) := trimmed_file f]> (fs w);
         trace := trace w ++
           [OpenRead (str (truediv (Path root) file));
            OpenWrite (str (truediv (Path root) file));
            Stdout ("Modified: " +:+ str (truediv (Path root) file) +:+ " ("
                    +:+ pretty (bytes_removed (data f)) +:+ " bytes removed)")] |}
      (count_modified (count_file c) (bytes_removed (data f)))
| step_write_error f :
    qualifies exts excl root file = true -> dry = false ->
    fs w !! str (truediv (Path root) file) = Some f -> readable f = true ->
    writable f = false -> 0 < bytes_removed (data f) ->
    file_step exts excl dry root file c w
      (log (Stderr (error_line "Error processing " (truediv (Path root) file)
                      {| os_errno := EACCES;
                         os_filename := str (truediv (Path root) file) |}))
         (log (OpenWrite (str (truediv (Path root) file)))
            (log (OpenRead (str (truediv (Path root) file))) w)))
      (count_file c).

(** The paths of the files opened for reading, and of the directories
    listed, in the order of the trace. *)
Definition reads (tr : list event) : list string :=
  flat_map (fun ev => match ev with OpenRead p => [p] | _ => [] end) tr.

Definition scans (tr : list event) : list string :=
  flat_map (fun ev => match ev with Scandir p => [p] | _ => [] end) tr.

(** The directories that the walk lists from [top] on, in order: [top],
    then what it lists below each subdirectory that is not hidden. *)
Fixpoint walk_dirs (top : string) (t : dirtree) : list string :=
  match t with
  | DirTree files subdirs =>
      top :: flat_map
               (fun dirname =>
                  find_subdir dirname
                    (fun sub => walk_dirs (os_path_join top dirname) sub) [] subdirs)
               (prune_hidden (map fst subdirs))
  end.

(** The files that pass the tests of the loop body, in the order of the
    walk: those of [top], then those below each subdirectory that is not
    hidden. *)
Fixpoint walk_files (exts : option (gset string)) (excl : option (list string))
    (top : string) (t : dirtree) : list PurePath :=
  match t with
  | DirTree files subdirs =>
      map (truediv (Path top)) (List.filter (qualifies exts excl top) files)
      ++ flat_map
           (fun dirname =>
              find_subdir dirname
                (fun sub => walk_files exts excl (os_path_join top dirname) sub)
                [] subdirs)
           (prune_hidden (map fst subdirs))
  end.

(** From [w], [c] to [w'], [c']: the files [r] were opened for reading, the
    directories [s] were listed, and each file read was counted. *)
Definition advances (w : world) (c : counters) (w' : world) (c' : counters)
    (r s : list string) : Prop :=
  reads (trace w') = (reads (trace w) ++ r)%list /\
  scans (trace w') = (scans (trace w) ++ s)%list /\
  total_files c' = total_files c + Z.of_nat (length r).




#[export] Instance byte_eq_decision : EqDecision byte := Byte.byte_eq_dec.

#[export] Instance file_eq_decision : EqDecision file.
Proof. solve_decision. Defined.



Local Close Scope string_scope.

(** * The examples of the specification *)

Section Examples.

Let hello : bytes := ["h"; "e"; "l"; "l"; "o"]%byte.

Example trim_hello_lf : trim (hello ++ [LF]) = (hello, 1).
Proof. reflexivity. Qed.

Example trim_hello_crlf_crlf : trim (hello ++ [CR; LF; CR; LF]) = (hello, 4).
Proof. reflexivity. Qed.

Example trim_empty : trim [] = ([], 0).
Proof. reflexivity. Qed.

Example trim_no_newline : trim hello = (hello, 0).
Proof. reflexivity. Qed.

Example trim_mixed : trim [CR; LF; LF; CR] = ([], 4).
Proof. reflexivity. Qed.

(** A directory with [a.txt] and [b.py], run with [--extensions .txt]. *)
Let two_files : gmap string file :=
  {[ "d/a.txt"%string := file_of ["x"%byte; LF];
     "d/b.py"%string := file_of ["y"%byte; LF] ]}.

Let two_files_tree : dirtree := DirTree ["a.txt"; "b.py"]%string [].

Example run_apply :
  let r := process_directory (Some {[ ".txt"%string ]}) None false (Path "d") two_files_tree
             (start two_files) in
  snd r = Returned {| total_files := 1; modified_files := 1; total_bytes_removed := 1 |} /\
  fs (fst r) = {[ "d/a.txt"%string := file_of ["x"%byte];
                  "d/b.py"%string := file_of ["y"%byte; LF] ]}.
Proof. split; vm_compute; reflexivity. Qed.

Example run_dry :
  let r := process_directory (Some {[ ".txt"%string ]}) None true (Path "d") two_files_tree
             (start two_files) in
  snd r = Returned {| total_files := 1; modified_files := 1; total_bytes_removed := 1 |} /\
  fs (fst r) = two_files.
Proof. split; vm_compute; reflexivity. Qed.

Example path_of_file_in_current_directory :
  str (truediv (Path ".") "a.txt") = "a.txt"%string.
Proof. reflexivity. Qed.

Example path_is_normalised :
  str (truediv (Path "./x//y/") "a.txt") = "x/y/a.txt"%string.
Proof. reflexivity. Qed.

Example suffix_is_last_extension :
  PyStr.lower (suffix (Path "x/IMG.tar.GZ")) = ".gz"%string.
Proof. reflexivity. Qed.

Example hidden_name_has_no_suffix : suffix (Path "x/.bashrc") = ""%string.
Proof. reflexivity. Qed.

End Examples.

(** * Properties of the Trimmer *)

Section TrimmerFacts.

(** The loop unfolds as a [while] loop does. *)
Lemma trim_loop_step (content : bytes) :
  trim_loop content =
  if loop_cond content then trim_loop (loop_body content) else content.
Proof.
  funelim (trim_loop content);
    match goal with H : loop_cond _ = _ |- _ => rewrite H end; reflexivity.
Qed.

Lemma dry_run_loop_step (content : bytes) :
  dry_run_loop content =
  if dry_loop_cond content then dry_run_loop (dry_loop_body content) else content.
Proof.
  funelim (dry_run_loop content);
    match goal with H : dry_loop_cond _ = _ |- _ => rewrite H end; reflexivity.
Qed.

Lemma trim_loop_fixed (content : bytes) :
  loop_cond content = false -> trim_loop content = content.
Proof. intros H. rewrite trim_loop_step, H. reflexivity. Qed.

Lemma loop_cond_trim_loop (content : bytes) :
  loop_cond (trim_loop content) = false.
Proof. funelim (trim_loop content); assumption. Qed.

Lemma trim_loop_length (content : bytes) :
  (length (trim_loop content) <= length content)%nat.
Proof.
  funelim (trim_loop content); [|lia].
  match goal with H : loop_cond _ = true |- _ => pose proof (loop_body_lt _ H) end.
  lia.
Qed.

(** What an iteration removes is a run of LF and CR bytes at the end. *)
Lemma loop_body_suffix (content : bytes) :
  loop_cond content = true ->
  exists removed,
    content = loop_body content ++ removed /\
    Forall (fun c => c = LF \/ c = CR) removed.
Proof.
  intros (pre & c & -> & Hc)%loop_cond_true.
  destruct Hc as [-> | ->].
  - destruct pre as [|x q _] using rev_ind.
    + exists [LF]. rewrite loop_body_lf; [auto|]. intros [|? ?]; discriminate.
    + destruct (Byte.byte_eq_dec x CR) as [-> | Hx].
      * exists [CR; LF]. rewrite <- app_assoc. simpl. rewrite loop_body_crlf. auto.
      * exists [LF]. rewrite loop_body_lf; [auto|].
        intros q' Hq. apply app_inj_tail in Hq as [_ Hq]. contradiction.
  - exists [CR]. rewrite loop_body_cr. auto.
Qed.

Lemma trim_loop_suffix (content : bytes) :
  exists removed,
    content = trim_loop content ++ removed /\
    Forall (fun c => c = LF \/ c = CR) removed.
Proof.
  funelim (trim_loop content).
  - match goal with
    | IH : exists _, _ /\ _ |- _ => destruct IH as (r1 & Heq1 & Hall1)
    end.
    match goal with
    | H : loop_cond _ = true |- _ =>
        destruct (loop_body_suffix _ H) as (r2 & Heq2 & Hall2)
    end.
    exists (r1 ++ r2). split; [|apply Forall_app; auto].
    rewrite app_assoc, <- Heq1. exact Heq2.
  - exists []. rewrite app_nil_r. auto.
Qed.

Lemma trim_loop_snoc_cr (pre : bytes) :
  trim_loop (pre ++ [CR]) = trim_loop pre.
Proof.
  rewrite trim_loop_step.
  replace (loop_cond (pre ++ [CR])) with true.
  - rewrite loop_body_cr. reflexivity.
  - symmetry. apply loop_cond_true. eauto.
Qed.

Lemma trim_loop_repeat_cr (pre : bytes) (k : nat) :
  trim_loop (pre ++ repeat CR k) = trim_loop pre.
Proof.
  induction k as [|k IH]; simpl.
  - rewrite app_nil_r. reflexivity.
  - rewrite repeat_cons, app_assoc, trim_loop_snoc_cr. exact IH.
Qed.

(** The two copies of the loop compute the same function. *)
Lemma dry_run_loop_eq (content : bytes) :
  dry_run_loop content = trim_loop content.
Proof.
  funelim (dry_run_loop content).
  - rewrite (trim_loop_step temp_content).
    change (loop_cond temp_content) with (dry_loop_cond temp_content).
    match goal with H : dry_loop_cond _ = true |- _ => rewrite H end.
    assumption.
  - symmetry. apply trim_loop_fixed. assumption.
Qed.

Lemma while_fuel_trim_loop (fuel : nat) : forall content : bytes,
  (length content <= fuel)%nat ->
  while_fuel loop_cond loop_body fuel content = Some (trim_loop content).
Proof.
  induction fuel as [|fuel IH]; intros content Hlen.
  - destruct content; [|simpl in Hlen; lia]. reflexivity.
  - simpl. rewrite trim_loop_step.
    destruct (loop_cond content) eqn:Hc; [|reflexivity].
    apply IH. apply loop_body_lt in Hc. lia.
Qed.

End TrimmerFacts.

(** C1. For every byte sequence, the trimmed output of the Trimmer (the
    content that [remove_trailing_newlines] writes back) is empty or its
    last byte is neither LF (0x0A) nor CR (0x0D). *)
Theorem trimmed_output_not_newline_terminated (b : bytes) :
  newBytes (trim b) = [] \/
  exists pre c, newBytes (trim b) = pre ++ [c] /\ c <> LF /\ c <> CR.
Proof.
  unfold newBytes, trim. simpl.
  apply loop_cond_false, loop_cond_trim_loop.
Qed.

(** C2. For every byte sequence, the length of the input is the length of
    the trimmed output plus the number of bytes removed, and that number
    is not negative; the bytes removed are a run of LF and CR bytes at the
    end of the input. *)
Theorem length_is_trimmed_plus_removed (b : bytes) :
  len b = len (newBytes (trim b)) + bytesRemoved (trim b) /\
  0 <= bytesRemoved (trim b) /\
  exists removed,
    b = newBytes (trim b) ++ removed /\
    len removed = bytesRemoved (trim b) /\
    Forall (fun c => c = LF \/ c = CR) removed.
Proof.
  unfold newBytes, bytesRemoved, trim, bytes_removed, len. simpl.
  pose proof (trim_loop_length b) as Hle.
  split; [lia|]. split; [lia|].
  destruct (trim_loop_suffix b) as (removed & Heq & Hall).
  exists removed. split; [exact Heq|]. split; [|exact Hall].
  pose proof (f_equal length Heq) as Hlen. rewrite length_app in Hlen. lia.
Qed.

(** C4. Trimming is idempotent: trimming the trimmed output removes no
    byte and gives the same output again. *)
Theorem trim_idempotent (b : bytes) :
  bytesRemoved (trim (newBytes (trim b))) = 0 /\
  newBytes (trim (newBytes (trim b))) = newBytes (trim b).
Proof.
  unfold newBytes, bytesRemoved, trim, bytes_removed. simpl.
  rewrite (trim_loop_fixed (trim_loop b)) by apply loop_cond_trim_loop.
  split; [lia | reflexivity].
Qed.

(** C8. A run of trailing CR bytes with no LF after it is stripped whole:
    when [x] does not end in LF or CR and [k >= 1], trimming [x] followed
    by [k] CR bytes gives [x] and removes [k] bytes. *)
Theorem trailing_cr_run_stripped (x : bytes) (k : nat) :
  (x = [] \/ exists pre c, x = pre ++ [c] /\ c <> LF /\ c <> CR) ->
  (1 <= k)%nat ->
  trim (x ++ repeat CR k) = (x, Z.of_nat k).
Proof.
  intros Hx%loop_cond_false _.
  unfold trim, bytes_removed, len.
  rewrite trim_loop_repeat_cr, (trim_loop_fixed x Hx).
  rewrite length_app, repeat_length. f_equal. lia.
Qed.

(** The example of the specification: [trim(b"x\r\r") = (b"x", 2)]. *)
Lemma trailing_cr_run_stripped_witness :
  trim ["x"%byte; x0d; x0d] = (["x"%byte], 2).
Proof.
  apply (trailing_cr_run_stripped ["x"%byte] 2).
  - right. exists [], "x"%byte. repeat split; discriminate.
  - lia.
Defined.

(** C9. The trim loop terminates on every finite byte sequence: an
    iteration runs only on a non-empty sequence and removes exactly one
    byte or two, so the length strictly decreases, and the loop run step
    by step stops within [length content] iterations with the result of
    [trim_loop]; the same holds for the copy of the loop in the dry-run
    branch. *)
Theorem trim_loop_terminates (content : bytes) :
  (loop_cond content = true ->
   content <> [] /\
   (length content = length (loop_body content) + 1 \/
    length content = length (loop_body content) + 2)%nat) /\
  (forall fuel, (length content <= fuel)%nat ->
     while_fuel loop_cond loop_body fuel content = Some (trim_loop content)) /\
  (forall fuel, (length content <= fuel)%nat ->
     while_fuel dry_loop_cond dry_loop_body fuel content
     = Some (dry_run_loop content)).
Proof.
  split; [|split].
  - intros Hc. split; [|apply loop_body_shrinks; exact Hc].
    intros ->. discriminate.
  - intros fuel. apply while_fuel_trim_loop.
  - intros fuel Hlen. rewrite dry_run_loop_eq.
    apply while_fuel_trim_loop. exact Hlen.
Qed.

Lemma trim_loop_terminates_witness :
  (length ["a"%byte; x0d; x0a] = length (loop_body ["a"%byte; x0d; x0a]) + 2)%nat /\
  while_fuel loop_cond loop_body 3 ["a"%byte; x0d; x0a] = Some ["a"%byte] /\
  while_fuel dry_loop_cond dry_loop_body 3 ["a"%byte; x0d; x0a] = Some ["a"%byte].
Proof.
  destruct (trim_loop_terminates ["a"%byte; x0d; x0a]) as (Hstep & Hloop & Hdry).
  split; [|split].
  - destruct (Hstep eq_refl) as [_ [H | H]]; [discriminate H | exact H].
  - apply (Hloop 3%nat). simpl. lia.
  - apply (Hdry 3%nat). simpl. lia.
Defined.

(** ** Further properties of the Trimmer *)

Section TrimmerMore.

Lemma trim_loop_snoc_lf (pre : bytes) : trim_loop (pre ++ [LF]) = trim_loop pre.
Proof.
  rewrite trim_loop_step.
  replace (loop_cond (pre ++ [LF])) with true
    by (symmetry; apply loop_cond_true; eauto).
  destruct pre as [|x q _] using rev_ind.
  - rewrite loop_body_lf; [reflexivity|]. intros [|? ?]; discriminate.
  - destruct (Byte.byte_eq_dec x CR) as [-> | Hx].
    + rewrite <- app_assoc. simpl. rewrite loop_body_crlf, trim_loop_snoc_cr.
      reflexivity.
    + rewrite loop_body_lf; [reflexivity|].
      intros q' Hq. apply app_inj_tail in Hq as [_ Hq]. contradiction.
Qed.

Lemma trim_loop_newline_suffix (pre suffix : bytes) :
  Forall newline_byte suffix -> trim_loop (pre ++ suffix) = trim_loop pre.
Proof.
  induction suffix as [|c suffix IH] using rev_ind; intros Hall.
  - rewrite app_nil_r. reflexivity.
  - apply Forall_app in Hall as [Hsuffix Hc]. inversion Hc as [|? ? [-> | ->] _]; subst.
    + rewrite app_assoc, trim_loop_snoc_lf. auto.
    + rewrite app_assoc, trim_loop_snoc_cr. auto.
Qed.

Lemma bytes_removed_pos (content : bytes) :
  loop_cond content = true -> 0 < bytes_removed content.
Proof.
  intros Hc. unfold bytes_removed, len. cbv zeta.
  rewrite trim_loop_step, Hc.
  pose proof (loop_body_lt content Hc). pose proof (trim_loop_length (loop_body content)).
  lia.
Qed.

Lemma bytes_removed_zero (content : bytes) :
  loop_cond content = false -> bytes_removed content = 0.
Proof.
  intros Hc. unfold bytes_removed, len. cbv zeta. rewrite (trim_loop_fixed _ Hc). lia.
Qed.

End TrimmerMore.

(** X1. Any trailing mix of LF and CR bytes is stripped whole: when [x]
    does not end in LF or CR and [suffix] holds only LF and CR bytes, in
    any order, trimming [x ++ suffix] gives [x] and removes
    [len suffix] bytes. *)
Theorem any_newline_suffix_stripped (x suffix : bytes) :
  (x = [] \/ exists pre c, x = pre ++ [c] /\ c <> LF /\ c <> CR) ->
  Forall newline_byte suffix ->
  trim (x ++ suffix) = (x, len suffix).
Proof.
  intros Hx%loop_cond_false Hall. unfold trim, bytes_removed, len. cbv zeta.
  rewrite (trim_loop_newline_suffix x suffix Hall), (trim_loop_fixed x Hx).
  rewrite length_app. f_equal. lia.
Qed.

Lemma any_newline_suffix_stripped_witness :
  trim (["a"%byte] ++ [LF; CR; CR; LF; LF]) = (["a"%byte], 5).
Proof.
  apply (any_newline_suffix_stripped ["a"%byte] [LF; CR; CR; LF; LF]).
  - right. exists [], "a"%byte. repeat split; discriminate.
  - repeat (apply List.Forall_cons; [first [left; reflexivity | right; reflexivity]|]).
    apply List.Forall_nil.
Defined.

(** X2. The Trimmer removes nothing exactly when the content is empty or
    ends in a byte that is neither LF nor CR, and exactly when its output
    is its input. *)
Theorem nothing_removed_iff_no_trailing_newline (b : bytes) :
  (bytesRemoved (trim b) = 0 <->
   b = [] \/ exists pre c, b = pre ++ [c] /\ c <> LF /\ c <> CR) /\
  (bytesRemoved (trim b) = 0 <-> newBytes (trim b) = b).
Proof.
  unfold bytesRemoved, newBytes, trim. simpl. rewrite <- loop_cond_false.
  destruct (loop_cond b) eqn:Hc.
  - pose proof (bytes_removed_pos b Hc) as Hpos.
    split; split; try (intros; lia || discriminate).
    intros Heq. unfold bytes_removed, len in Hpos. cbv zeta in Hpos.
    rewrite Heq in Hpos. lia.
  - split; split; intros _; auto using bytes_removed_zero, trim_loop_fixed.
Qed.


Local Open Scope string_scope.

(** * Facts on strings and paths *)

Module StrFacts.

Lemma sapp_nil_l (s : string) : "" +:+ s = s.
Proof. reflexivity. Qed.

Lemma sapp_cons (x : ascii) (a b : string) : String x a +:+ b = String x (a +:+ b).
Proof. reflexivity. Qed.

Lemma sapp_assoc (a b c : string) : (a +:+ b) +:+ c = a +:+ (b +:+ c).
Proof.
  induction a as [|x a IH]; [reflexivity|].
  rewrite !sapp_cons, IH. reflexivity.
Qed.

Lemma sapp_nil_r (a : string) : a +:+ "" = a.
Proof.
  induction a as [|x a IH]; [reflexivity|].
  rewrite sapp_cons, IH. reflexivity.
Qed.

Lemma prefix_spec (p s : string) :
  String.prefix p s = true <-> exists r, s = p +:+ r.
Proof.
  revert s. induction p as [|x p IH]; intros s; simpl.
  - destruct s; split; eauto.
  - destruct s as [|y s]; simpl.
    + split; [discriminate | intros [r Hr]; discriminate].
    + destruct (ascii_dec x y) as [-> | Hne].
      * rewrite IH. split; intros [r Hr]; exists r; rewrite ?sapp_cons in *; congruence.
      * split; [discriminate | intros [r Hr]; rewrite sapp_cons in Hr; congruence].
Qed.

Lemma contains_nil (pat : string) :
  PyStr.contains pat "" = String.prefix pat "" || false.
Proof. reflexivity. Qed.

Lemma contains_cons (pat : string) (x : ascii) (s : string) :
  PyStr.contains pat (String x s)
  = String.prefix pat (String x s) || PyStr.contains pat s.
Proof. reflexivity. Qed.

Lemma contains_spec (pat s : string) :
  PyStr.contains pat s = true <-> exists a b, s = a +:+ pat +:+ b.
Proof.
  induction s as [|x s IH].
  - rewrite contains_nil, orb_false_r, prefix_spec. split.
    + intros [r Hr]. exists "", r. exact Hr.
    + intros ([|? a] & b & Hab); [eauto | discriminate].
  - rewrite contains_cons, orb_true_iff, IH, prefix_spec. split.
    + intros [[r Hr] | (a & b & Hab)].
      * exists "", r. exact Hr.
      * exists (String x a), b. rewrite sapp_cons. congruence.
    + intros ([|y a] & b & Hab).
      * left. eauto.
      * right. rewrite sapp_cons in Hab. injection Hab as -> ->. eauto.
Qed.

Lemma contains_app (pat s l r : string) :
  PyStr.contains pat s = true -> PyStr.contains pat (l +:+ s +:+ r) = true.
Proof.
  rewrite !contains_spec. intros (a & b & ->).
  exists (l +:+ a), (b +:+ r). rewrite !sapp_assoc. reflexivity.
Qed.


Lemma split_no_sep (n : string) : has_sep n = false -> PyStr.split sep n = [n].
Proof.
  induction n as [|c n IH]; simpl; [reflexivity|].
  intros [Hc Hn]%orb_false_iff. rewrite Hc, (IH Hn). reflexivity.
Qed.

Lemma split_not_nil (s : string) : PyStr.split sep s <> [].
Proof.
  induction s as [|c s IH]; simpl; [discriminate|].
  destruct (Ascii.eqb c sep); [discriminate|].
  destruct (PyStr.split sep s); discriminate.
Qed.

Lemma split_app_sep (a b : string) :
  PyStr.split sep (a +:+ String sep b) = (PyStr.split sep a ++ PyStr.split sep b)%list.
Proof.
  induction a as [|c a IH].
  - rewrite sapp_nil_l. reflexivity.
  - rewrite sapp_cons. simpl. rewrite IH.
    destruct (Ascii.eqb c sep); [reflexivity|].
    pose proof (split_not_nil a) as Hne.
    destruct (PyStr.split sep a); [contradiction|reflexivity].
Qed.

Lemma split_has_no_sep (s : string) :
  Forall (fun c => has_sep c = false) (PyStr.split sep s).
Proof.
  induction s as [|c s IH]; simpl.
  - repeat constructor.
  - destruct (Ascii.eqb c sep) eqn:Hc.
    + constructor; [reflexivity | exact IH].
    + destruct (PyStr.split sep s) as [|h t].
      * repeat constructor. simpl. rewrite Hc. reflexivity.
      * inversion IH; subst. constructor; [|assumption].
        simpl. rewrite Hc. assumption.
Qed.

Lemma split_join (parts : list string) :
  parts <> [] -> Forall (fun c => has_sep c = false) parts ->
  PyStr.split sep (PyStr.join "/" parts) = parts.
Proof.
  induction parts as [|x parts IH]; [contradiction|].
  intros _ Hall. inversion Hall as [|? ? Hx Hrest]; subst.
  destruct parts as [|y parts].
  - simpl. apply split_no_sep. exact Hx.
  - change (PyStr.join "/" (x :: y :: parts))
      with (x +:+ "/" +:+ PyStr.join "/" (y :: parts)).
    change ("/" +:+ PyStr.join "/" (y :: parts))
      with (String sep (PyStr.join "/" (y :: parts))).
    rewrite split_app_sep, (split_no_sep x Hx), IH by (assumption || discriminate).
    reflexivity.
Qed.

Lemma endswith_char_spec (a : string) (c : ascii) :
  PyStr.endswith_char a c = true -> exists a', a = a' +:+ String c "".
Proof.
  induction a as [|x a IH]; simpl; [discriminate|].
  destruct a as [|y a].
  - intros ->%Ascii.eqb_eq. exists "". reflexivity.
  - intros [a' Ha']%IH. exists (String x a'). rewrite sapp_cons, <- Ha'. reflexivity.
Qed.

End StrFacts.

Import StrFacts.

Module PathFacts.

Lemma path_eq (p q : PurePath) :
  anchor p = anchor q -> tail p = tail q -> p = q.
Proof. destruct p, q. simpl. congruence. Qed.

Lemma anchor_Path (s : string) : anchor (Path s) = anchor_of (leading s).
Proof.
  unfold Path, splitroot.
  destruct s as [|c1 [|c2 [|c3 s]]]; simpl;
    repeat match goal with
           | |- context [Ascii.eqb ?c sep] => destruct (Ascii.eqb c sep)
           end; simpl; try reflexivity.
Qed.

Lemma tail_Path (s : string) :
  tail (Path s) = List.filter keep_part (PyStr.split sep s).
Proof.
  unfold Path, splitroot.
  destruct s as [|c1 [|c2 [|c3 s]]]; simpl;
    repeat match goal with
           | |- context [Ascii.eqb ?c sep] => destruct (Ascii.eqb c sep) eqn:?
           end; simpl; rewrite ?Heqb, ?Heqb0, ?Heqb1; simpl; try reflexivity.
Qed.

Lemma leading_app (a m : string) :
  leading (a +:+ m)
  = if (leading a =? String.length a)%nat then (String.length a + leading m)%nat
    else leading a.
Proof.
  induction a as [|c a IH]; [reflexivity|].
  rewrite sapp_cons. simpl. destruct (Ascii.eqb c sep); [|reflexivity].
  rewrite IH. simpl. destruct (leading a =? String.length a)%nat; reflexivity.
Qed.

Lemma leading_all (a : string) :
  leading a = String.length a -> a = "" \/ PyStr.endswith_char a sep = true.
Proof.
  induction a as [|c a IH]; [auto|]. intros Hlen. simpl in Hlen.
  destruct (Ascii.eqb c sep) eqn:Hc; [|discriminate].
  injection Hlen as Hlen. right.
  destruct (IH Hlen) as [-> | Ha]; [exact Hc|].
  destruct a; [discriminate | exact Ha].
Qed.

Lemma has_sep_starts (n : string) : has_sep n = false -> starts_sep n = false.
Proof. destruct n; simpl; [reflexivity|]. intros [? _]%orb_false_iff. assumption. Qed.

Lemma starts_sep_leading (n : string) : starts_sep n = false -> leading n = 0%nat.
Proof. destruct n; simpl; [reflexivity|]. intros ->. reflexivity. Qed.

Lemma leading_join (a n : string) :
  has_sep n = false -> leading (os_path_join a n) = leading a.
Proof.
  intros Hn%has_sep_starts. unfold os_path_join. rewrite Hn.
  pose proof (starts_sep_leading n Hn) as Hl.
  destruct (String.eqb a "" || PyStr.endswith_char a sep) eqn:Hend.
  - rewrite leading_app, Hl.
    destruct (leading a =? String.length a)%nat eqn:He; [|reflexivity].
    apply Nat.eqb_eq in He. lia.
  - rewrite leading_app.
    destruct (leading a =? String.length a)%nat eqn:He; [|reflexivity].
    apply Nat.eqb_eq, leading_all in He. apply orb_false_iff in Hend as [H1 H2].
    destruct He as [-> | He]; [discriminate | congruence].
Qed.

Lemma comps_join (a n : string) :
  has_sep n = false ->
  List.filter keep_part (PyStr.split sep (os_path_join a n))
  = (List.filter keep_part (PyStr.split sep a) ++ List.filter keep_part [n])%list.
Proof.
  intros Hn. unfold os_path_join. rewrite (has_sep_starts n Hn).
  destruct (String.eqb a "") eqn:Ha; simpl orb.
  - apply String.eqb_eq in Ha as ->. rewrite sapp_nil_l, (split_no_sep n Hn).
    reflexivity.
  - destruct (PyStr.endswith_char a sep) eqn:Hend.
    + apply endswith_char_spec in Hend as [a' ->].
      rewrite sapp_assoc, sapp_cons, sapp_nil_l.
      rewrite !split_app_sep, !List.filter_app, (split_no_sep n Hn).
      simpl. rewrite List.app_nil_r. reflexivity.
    + change ("/" +:+ n) with (String sep n).
      rewrite split_app_sep, List.filter_app, (split_no_sep n Hn). reflexivity.
Qed.

Lemma Path_join (a n : string) :
  has_sep n = false ->
  Path (os_path_join a n)
  = {| anchor := anchor (Path a);
       tail := tail (Path a) ++ List.filter keep_part [n] |}.
Proof.
  intros Hn. apply path_eq; simpl.
  - rewrite !anchor_Path, leading_join by exact Hn. reflexivity.
  - rewrite !tail_Path. apply comps_join. exact Hn.
Qed.

Lemma Path_name (n : string) :
  has_sep n = false ->
  Path n = {| anchor := ""; tail := List.filter keep_part [n] |}.
Proof.
  intros Hn. apply path_eq; simpl.
  - rewrite anchor_Path, starts_sep_leading by (apply has_sep_starts; exact Hn).
    reflexivity.
  - rewrite tail_Path, split_no_sep by exact Hn. reflexivity.
Qed.

Lemma truediv_name (p : PurePath) (n : string) :
  has_sep n = false ->
  truediv p n = {| anchor := anchor p; tail := tail p ++ List.filter keep_part [n] |}.
Proof. intros Hn. unfold truediv. rewrite (Path_name n Hn). reflexivity. Qed.

Lemma filter_components (l : list string) :
  Forall (fun c => has_sep c = false) l -> Forall component (List.filter keep_part l).
Proof.
  induction 1 as [|x l Hx Hl IH]; simpl; [constructor|].
  destruct (keep_part x) eqn:Hk; [constructor; [split|]|]; assumption.
Qed.

Lemma filter_keep_components (l : list string) :
  Forall component l -> List.filter keep_part l = l.
Proof.
  induction 1 as [|x l [Hx _] Hl IH]; simpl; [reflexivity|].
  rewrite Hx, IH. reflexivity.
Qed.

Lemma Path_wf (s : string) : wf_path (Path s).
Proof.
  split.
  - rewrite anchor_Path. destruct (leading s) as [|[|[|k]]]; simpl; auto.
  - rewrite tail_Path. apply filter_components, split_has_no_sep.
Qed.

Lemma join_head (parts : list string) :
  Forall component parts -> starts_sep (PyStr.join "/" parts) = false.
Proof.
  destruct 1 as [|x l [Hk Hs] Hl]; [reflexivity|].
  assert (starts_sep x = false) as Hx by (apply has_sep_starts; exact Hs).
  destruct x as [|c x]; [discriminate|].
  destruct l; simpl in *; exact Hx.
Qed.

(** [Path(str(p)) == p]. *)
Lemma Path_str (p : PurePath) : wf_path p -> Path (str p) = p.
Proof.
  intros [Ha Ht]. unfold str.
  set (r := PyStr.join "/" (tail p)).
  assert (List.filter keep_part (PyStr.split sep r) = tail p) as Hr.
  { subst r. destruct (tail p) as [|x l] eqn:Htl; [reflexivity|].
    rewrite split_join; [|discriminate|].
    - apply filter_keep_components. exact Ht.
    - eapply Forall_impl; [exact Ht|]. intros c [_ Hc]. exact Hc. }
  pose proof (join_head (tail p) Ht) as Hh. fold r in Hh.
  apply starts_sep_leading in Hh.
  destruct p as [a t]. simpl in *.
  destruct Ha as [-> | [-> | ->]].
  - rewrite sapp_nil_l. destruct (String.eqb r "") eqn:He.
    + apply String.eqb_eq in He. rewrite He in Hr. simpl in Hr. subst t. reflexivity.
    + apply path_eq; simpl.
      * rewrite anchor_Path, Hh. reflexivity.
      * rewrite tail_Path. exact Hr.
  - rewrite sapp_cons, sapp_nil_l. simpl String.eqb. cbv iota.
    apply path_eq; simpl.
    + rewrite anchor_Path. simpl. rewrite Hh. reflexivity.
    + rewrite tail_Path. simpl. exact Hr.
  - rewrite !sapp_cons, sapp_nil_l. simpl String.eqb. cbv iota.
    apply path_eq; simpl.
    + rewrite anchor_Path. simpl. rewrite Hh. reflexivity.
    + rewrite tail_Path. simpl. exact Hr.
Qed.

End PathFacts.

Import PathFacts.

(** * The Trimmer on a file, case by case *)

Section IOFacts.

Lemma bind_returned {A B} (m : IO A) (f : A -> IO B) (w w' : world) (a : A) :
  m w = (w', Returned a) -> (m ≫= f) w = f a w'.
Proof. intros H. unfold mbind, IO_bind. rewrite H. reflexivity. Qed.

Lemma bind_raised {A B} (m : IO A) (f : A -> IO B) (w w' : world) (e : OSError) :
  m w = (w', Raised e) -> (m ≫= f) w = (w', Raised e).
Proof. intros H. unfold mbind, IO_bind. rewrite H. reflexivity. Qed.

Lemma read_binary_ok (p : PurePath) (w : world) (f : file) :
  fs w !! str p = Some f -> readable f = true ->
  read_binary p w = (log (OpenRead (str p)) w, Returned (data f)).
Proof. intros Hf Hr. unfold read_binary. simpl. rewrite Hf, Hr. reflexivity. Qed.

Lemma read_binary_fails (p : PurePath) (w : world) (e : OSError) :
  read_error w p = Some e ->
  read_binary p w = (log (OpenRead (str p)) w, Raised e).
Proof.
  unfold read_error, read_binary. simpl.
  destruct (fs w !! str p) as [f|]; [destruct (readable f)|]; congruence.
Qed.

(** The Trimmer on a file that cannot be read. *)
Lemma remove_trailing_newlines_unreadable (p : PurePath) (w : world) (e : OSError) :
  read_error w p = Some e ->
  remove_trailing_newlines p w
  = (log (Stderr (error_line "Error processing " p e)) (log (OpenRead (str p)) w),
     Returned (false, 0)).
Proof.
  intros He. unfold remove_trailing_newlines, try_except.
  rewrite (bind_raised _ _ _ _ _ (read_binary_fails p w e He)). reflexivity.
Qed.

(** ... on a file with nothing to remove. *)
Lemma remove_trailing_newlines_unchanged (p : PurePath) (w : world) (f : file) :
  fs w !! str p = Some f -> readable f = true ->
  bytes_removed (data f) = 0 ->
  remove_trailing_newlines p w = (log (OpenRead (str p)) w, Returned (false, 0)).
Proof.
  intros Hf Hr H0. unfold remove_trailing_newlines, try_except.
  rewrite (bind_returned _ _ _ _ _ (read_binary_ok p w f Hf Hr)).
  destruct (truthy (data f)); simpl; [|reflexivity].
  unfold bytes_removed in H0. simpl in H0. rewrite H0. reflexivity.
Qed.

Lemma bytes_removed_pos_truthy (content : bytes) :
  0 < bytes_removed content -> truthy content = true.
Proof.
  destruct content; [|reflexivity]. unfold bytes_removed.
  rewrite trim_loop_fixed by reflexivity. lia.
Qed.

(** ... on a file with trailing newline bytes that can be written. *)
Lemma remove_trailing_newlines_modified (p : PurePath) (w : world) (f : file) :
  fs w !! str p = Some f -> readable f = true -> writable f = true ->
  0 < bytes_removed (data f) ->
  remove_trailing_newlines p w
  = ({| fs := <[str p := {| data := trim_loop (data f); readable := true;
                             writable := true |}]> (fs w);
        trace := trace w ++ [OpenRead (str p); OpenWrite (str p)] |},
     Returned (true, bytes_removed (data f))).
Proof.
  intros Hf Hr Hw Hpos. unfold remove_trailing_newlines, try_except.
  rewrite (bind_returned _ _ _ _ _ (read_binary_ok p w f Hf Hr)).
  rewrite (bytes_removed_pos_truthy _ Hpos). simpl negb. cbv iota.
  fold (bytes_removed (data f)).
  replace (bytes_removed (data f) >? 0) with true by (symmetry; apply Z.gtb_lt; lia).
  unfold mbind, IO_bind, write_binary. simpl.
  rewrite Hf, Hw, Hr. unfold mret, IO_ret. rewrite <- List.app_assoc. reflexivity.
Qed.

(** ... on a file with trailing newline bytes that cannot be written. *)
Lemma remove_trailing_newlines_unwritable (p : PurePath) (w : world) (f : file) :
  fs w !! str p = Some f -> readable f = true -> writable f = false ->
  0 < bytes_removed (data f) ->
  remove_trailing_newlines p w
  = (log (Stderr (error_line "Error processing " p
                    {| os_errno := EACCES; os_filename := str p |}))
       (log (OpenWrite (str p)) (log (OpenRead (str p)) w)),
     Returned (false, 0)).
Proof.
  intros Hf Hr Hw Hpos. unfold remove_trailing_newlines, try_except.
  rewrite (bind_returned _ _ _ _ _ (read_binary_ok p w f Hf Hr)).
  rewrite (bytes_removed_pos_truthy _ Hpos). simpl negb. cbv iota.
  fold (bytes_removed (data f)).
  replace (bytes_removed (data f) >? 0) with true by (symmetry; apply Z.gtb_lt; lia).
  unfold mbind, IO_bind, write_binary. simpl.
  rewrite Hf, Hw. reflexivity.
Qed.

End IOFacts.

(** * Rules for what a computation adds to the trace and for returning *)

Section Rules.

Context {A B : Type} (P : event -> Prop).

Lemma emits_ret (a : A) : emits P (mret a).
Proof. intros w. exists []. rewrite List.app_nil_r. split; [reflexivity | constructor]. Qed.

Lemma emits_bind (m : IO A) (f : A -> IO B) :
  emits P m -> (forall a, emits P (f a)) -> emits P (m ≫= f).
Proof.
  intros Hm Hf w. destruct (Hm w) as (evs & Ht & Hevs).
  unfold mbind, IO_bind. destruct (m w) as [w' [a|e]]; simpl in *.
  - destruct (Hf a w') as (evs' & Ht' & Hevs'). exists (evs ++ evs')%list.
    rewrite Ht', Ht, List.app_assoc. split; [reflexivity | apply Forall_app; auto].
  - exists evs. auto.
Qed.

Lemma emits_try (body : IO A) (handler : OSError -> IO A) :
  emits P body -> (forall e, emits P (handler e)) -> emits P (try_except body handler).
Proof.
  intros Hm Hh w. destruct (Hm w) as (evs & Ht & Hevs).
  unfold try_except. destruct (body w) as [w' [a|e]]; simpl in *.
  - exists evs. auto.
  - destruct (Hh e w') as (evs' & Ht' & Hevs'). exists (evs ++ evs')%list.
    rewrite Ht', Ht, List.app_assoc. split; [reflexivity | apply Forall_app; auto].
Qed.

Lemma emits_emit (ev : event) : P ev -> emits P (emit ev).
Proof. intros Hev w. exists [ev]. split; [reflexivity | repeat constructor; exact Hev]. Qed.

Lemma emits_read (p : PurePath) : P (OpenRead (str p)) -> emits P (read_binary p).
Proof.
  intros Hev w. exists [OpenRead (str p)]. split; [|repeat constructor; exact Hev].
  unfold read_binary. simpl.
  destruct (fs w !! str p) as [f|]; [destruct (readable f)|]; reflexivity.
Qed.

Lemma emits_write (p : PurePath) (content : bytes) :
  P (OpenWrite (str p)) -> emits P (write_binary p content).
Proof.
  intros Hev w. exists [OpenWrite (str p)]. split; [|repeat constructor; exact Hev].
  unfold write_binary. simpl.
  destruct (fs w !! str p) as [f|]; [destruct (writable f)|]; reflexivity.
Qed.

Lemma total_ret (a : A) : total (mret a).
Proof. intros w. exists a. reflexivity. Qed.

Lemma total_bind (m : IO A) (f : A -> IO B) :
  total m -> (forall a, total (f a)) -> total (m ≫= f).
Proof.
  intros Hm Hf w. destruct (Hm w) as (a & Ha).
  unfold mbind, IO_bind. destruct (m w) as [w' [a'|e]]; simpl in *; [|discriminate].
  apply Hf.
Qed.

Lemma total_try (body : IO A) (handler : OSError -> IO A) :
  (forall e, total (handler e)) -> total (try_except body handler).
Proof.
  intros Hh w. unfold try_except. destruct (body w) as [w' [a|e]]; simpl.
  - exists a. reflexivity.
  - apply Hh.
Qed.

End Rules.

Lemma total_emit (ev : event) : total (emit ev).
Proof. intros w. exists tt. reflexivity. Qed.

Lemma total_run {A} (m : IO A) (w : world) :
  total m -> exists w' a, m w = (w', Returned a).
Proof.
  intros H. destruct (H w) as [a Ha]. destruct (m w) as [w' o]. simpl in Ha.
  subst o. eauto.
Qed.


Ltac emits_step :=
  first
    [ apply emits_ret
    | apply emits_emit; first [left; reflexivity | right; reflexivity]
    | apply emits_read; right; reflexivity
    | apply emits_write; right; reflexivity
    | apply emits_try; [|intros ?]
    | apply emits_bind; [|intros ?] ].

Ltac total_step :=
  first
    [ apply total_ret
    | apply total_emit
    | apply total_try; intros ?
    | apply total_bind; [|intros ?] ].

Section FileFacts.

Variables (exts : option (gset string)) (excl : option (list string)) (dry : bool).

Lemma remove_trailing_newlines_emits (p : PurePath) :
  emits (about p) (remove_trailing_newlines p).
Proof.
  unfold remove_trailing_newlines, print_err.
  repeat first [emits_step | case_match | progress cbv zeta].
Qed.

Lemma remove_trailing_newlines_total (p : PurePath) :
  total (remove_trailing_newlines p).
Proof. unfold remove_trailing_newlines, print_err. repeat total_step. Qed.

Lemma process_file_emits (root file : string) (c : counters) :
  emits (about (truediv (Path root) file)) (process_file exts excl dry root file c).
Proof.
  unfold process_file, dry_run_file, apply_file, print, print_err.
  repeat first [apply remove_trailing_newlines_emits | emits_step | case_match
               | progress cbv zeta].
Qed.

Lemma process_file_total (root file : string) (c : counters) :
  total (process_file exts excl dry root file c).
Proof.
  unfold process_file, dry_run_file, apply_file, print, print_err.
  repeat first [apply remove_trailing_newlines_total | total_step | case_match
               | progress cbv zeta].
Qed.

End FileFacts.

(** * Rules for the loops and for the walk *)

Section dirtree_induction.

Variable P : dirtree -> Prop.
Hypothesis step : forall files subdirs,
  Forall (fun entry => P (snd entry)) subdirs -> P (DirTree files subdirs).

Fixpoint dirtree_ind (t : dirtree) : P t :=
  match t with
  | DirTree files subdirs =>
      step files subdirs
        ((fix all (l : list (string * dirtree)) : Forall (fun entry => P (snd entry)) l :=
            match l with
            | [] => List.Forall_nil _
            | entry :: l' => List.Forall_cons _ entry l' (dirtree_ind (snd entry)) (all l')
            end) subdirs)
  end.

End dirtree_induction.

Section LoopRules.

Context {S X : Type}.

Lemma hoare_for_each (I : S -> world -> Prop) (step : X -> S -> IO S) (xs : list X) :
  (forall x s, In x xs -> hoare (I s) (step x s) I) ->
  forall s, hoare (I s) (for_each xs step s) I.
Proof.
  induction xs as [|x xs IH]; intros Hstep s w Hw; simpl.
  - exists w, s. split; [reflexivity | exact Hw].
  - destruct (Hstep x s (or_introl eq_refl) w Hw) as (w1 & s1 & Hrun & H1).
    rewrite (bind_returned _ _ _ _ _ Hrun).
    apply IH; [|exact H1]. intros y s' Hy. apply Hstep. right. exact Hy.
Qed.

Lemma total_for_each (step : X -> S -> IO S) (xs : list X) :
  (forall x s, total (step x s)) -> forall s, total (for_each xs step s).
Proof.
  intros Hstep. induction xs as [|x xs IH]; intros s; simpl.
  - apply total_ret.
  - apply total_bind; [apply Hstep | exact IH].
Qed.

Lemma find_subdir_cases {B} (dirname : string) (found : dirtree -> B) (missing : B)
    (entries : list (string * dirtree)) :
  find_subdir dirname found missing entries = missing \/
  exists sub, In (dirname, sub) entries /\
              find_subdir dirname found missing entries = found sub.
Proof.
  induction entries as [|[n sub] entries IH]; simpl; [auto|].
  destruct (String.eqb n dirname) eqn:Hn.
  - apply String.eqb_eq in Hn as ->. right. eauto.
  - destruct IH as [IH | (sub' & Hin & IH)]; [auto|]. right. eauto.
Qed.

End LoopRules.

Section WalkRules.

Variables (exts : option (gset string)) (excl : option (list string)) (dry : bool).

Lemma os_walk_total : forall (t : dirtree) (top : string) (c : counters),
  total (os_walk (walk_body exts excl dry) top t c).
Proof.
  induction t as [files subdirs IH] using dirtree_ind; intros top c. simpl.
  apply total_bind; [apply total_emit | intros _].
  apply total_bind.
  - unfold walk_body, for_files. apply total_bind; [|intros ?; apply total_ret].
    apply total_for_each. intros file c'. apply process_file_total.
  - intros [c1 dirs]. apply total_for_each. intros dirname c'.
    destruct (find_subdir_cases dirname
                (fun sub => os_walk (walk_body exts excl dry)
                              (os_path_join top dirname) sub c')
                (mret c') subdirs) as [-> | (sub & Hin & ->)].
    + apply total_ret.
    + rewrite List.Forall_forall in IH. apply (IH _ Hin).
Qed.

Variable R : string -> Prop.
Variable I : counters -> world -> Prop.

Hypothesis H_scan : forall root c w, R root -> I c w -> I c (log (Scandir root) w).
Hypothesis H_file : forall root file c,
  R root -> valid_name file = true ->
  hoare (I c) (process_file exts excl dry root file c) I.
Hypothesis H_desc : forall root d,
  R root -> valid_name d = true -> PyStr.startswith d "." = false ->
  R (os_path_join root d).

Lemma os_walk_hoare : forall (t : dirtree) (top : string) (c : counters),
  valid_tree t = true -> R top ->
  hoare (I c) (os_walk (walk_body exts excl dry) top t c) I.
Proof.
  induction t as [files subdirs IH] using dirtree_ind; intros top c Hvalid Htop w Hw.
  simpl in Hvalid. apply andb_true_iff in Hvalid as [Hfiles Hsubs].
  rewrite List.forallb_forall in Hfiles, Hsubs. simpl.
  rewrite (bind_returned _ _ _ (log (Scandir top) w) tt) by reflexivity.
  destruct (hoare_for_each I (process_file exts excl dry top) files) with
    (s := c) (w := log (Scandir top) w) as (w1 & c1 & Hrun & H1).
  { intros file c' Hin. apply H_file; auto. }
  { apply H_scan; assumption. }
  assert (walk_body exts excl dry top (map fst subdirs) files c (log (Scandir top) w)
          = (w1, Returned (c1, prune_hidden (map fst subdirs)))) as Hbody.
  { unfold walk_body, for_files. rewrite (bind_returned _ _ _ _ _ Hrun). reflexivity. }
  rewrite (bind_returned _ _ _ _ _ Hbody).
  apply hoare_for_each; [|exact H1].
  intros dirname c' Hdir w' Hw'.
  apply List.filter_In in Hdir as [Hdir Hvis]. apply negb_true_iff in Hvis.
  destruct (find_subdir_cases dirname
              (fun sub => os_walk (walk_body exts excl dry)
                            (os_path_join top dirname) sub c')
              (mret c') subdirs) as [-> | (sub & Hin & ->)].
  - exists w', c'. split; [reflexivity | exact Hw'].
  - rewrite List.Forall_forall in IH. specialize (Hsubs _ Hin).
    apply andb_true_iff in Hsubs as [Hname Hsub]. simpl in Hname, Hsub.
    apply (IH _ Hin); auto.
Qed.

End WalkRules.

Section HoareRules.

Context {A B : Type}.

Lemma hoare_bind (P : world -> Prop) (m : IO A) (Q : A -> world -> Prop)
    (f : A -> IO B) (R : B -> world -> Prop) :
  hoare P m Q -> (forall a, hoare (Q a) (f a) R) -> hoare P (m ≫= f) R.
Proof.
  intros Hm Hf w Hw. destruct (Hm w Hw) as (w1 & a & Hrun & Ha).
  rewrite (bind_returned _ _ _ _ _ Hrun). apply (Hf a w1 Ha).
Qed.

Lemma hoare_ret (P : A -> world -> Prop) (a : A) : hoare (P a) (mret a) P.
Proof. intros w Hw. exists w, a. split; [reflexivity | exact Hw]. Qed.

End HoareRules.

Lemma hoare_emit (P : world -> Prop) (Q : unit -> world -> Prop) (ev : event) :
  (forall w, P w -> Q tt (log ev w)) -> hoare P (emit ev) Q.
Proof. intros H w Hw. exists (log ev w), tt. split; [reflexivity | auto]. Qed.

Section RunRule.

Variables (exts : option (gset string)) (excl : option (list string)) (dry : bool).
Variable R : string -> Prop.
Variable I : counters -> world -> Prop.

Hypothesis H_scan : forall root c w, R root -> I c w -> I c (log (Scandir root) w).
Hypothesis H_out : forall line c w, I c w -> I c (log (Stdout line) w).
Hypothesis H_file : forall root file c,
  R root -> valid_name file = true ->
  hoare (I c) (process_file exts excl dry root file c) I.
Hypothesis H_desc : forall root d,
  R root -> valid_name d = true -> PyStr.startswith d "." = false ->
  R (os_path_join root d).

Lemma process_directory_hoare (directory : PurePath) (t : dirtree) :
  valid_tree t = true -> R (str directory) ->
  hoare (I no_counts) (process_directory exts excl dry directory t) I.
Proof.
  intros Hvalid Htop. unfold process_directory, print.
  eapply hoare_bind; [apply hoare_emit with (Q := fun _ => I no_counts); auto|intros ?].
  eapply hoare_bind with (Q := fun _ => I no_counts); [|intros ?].
  { destruct dry; [apply hoare_emit; auto | apply (hoare_ret (fun _ => I no_counts))]. }
  eapply hoare_bind; [apply hoare_emit with (Q := fun _ => I no_counts); auto|intros ?].
  eapply hoare_bind; [apply (os_walk_hoare exts excl dry R I); auto|intros c].
  repeat (eapply hoare_bind; [apply hoare_emit with (Q := fun _ => I c); auto|intros ?]).
  intros w Hw. exists w, c. split; [reflexivity | exact Hw].
Qed.

End RunRule.

Section FilterFacts.

Lemma exclude_loop_spec (patterns : list string) (file_str : string) :
  exclude_loop patterns file_str = true <->
  exists pattern, In pattern patterns /\ PyStr.contains pattern file_str = true.
Proof.
  induction patterns as [|p ps IH]; simpl.
  - split; [discriminate | intros (? & [] & _)].
  - destruct (PyStr.contains p file_str) eqn:Hp.
    + split; [eauto | reflexivity].
    + rewrite IH. split; intros (q & Hq & Hc); [eauto|].
      destruct Hq as [-> | Hq]; [congruence | eauto].
Qed.

Lemma excluded_is_rejected (file_path : PurePath) exts (excl : list string)
    (pattern : string) :
  In pattern excl -> PyStr.contains pattern (str file_path) = true ->
  should_process_file file_path exts (Some excl) = false.
Proof.
  intros Hin Hc. unfold should_process_file.
  destruct (set_truthy exts && _); [reflexivity|].
  replace (list_truthy (Some excl)) with true by (destruct excl; [destruct Hin | reflexivity]).
  simpl. replace (exclude_loop excl (str file_path)) with true; [reflexivity|].
  symmetry. apply exclude_loop_spec. eauto.
Qed.

Lemma join_app (t rel : list string) :
  exists r, PyStr.join "/" (t ++ rel) = PyStr.join "/" t +:+ r.
Proof.
  induction t as [|x t IH].
  - exists (PyStr.join "/" rel). reflexivity.
  - destruct IH as [r Hr]. destruct t as [|y t].
    + destruct rel as [|z rel].
      * exists "". rewrite sapp_nil_r. reflexivity.
      * exists ("/" +:+ PyStr.join "/" (z :: rel)). reflexivity.
    + exists r. change (PyStr.join "/" ((x :: y :: t) ++ rel))
        with (x +:+ "/" +:+ PyStr.join "/" ((y :: t) ++ rel)).
      rewrite Hr.
      change (PyStr.join "/" (x :: y :: t)) with (x +:+ "/" +:+ PyStr.join "/" (y :: t)).
      rewrite !sapp_assoc. reflexivity.
Qed.

(** The string of a path that is not [.] starts the string of every
    path below it. *)
Lemma str_below (a : string) (t rel : list string) :
  str {| anchor := a; tail := t |} <> "." ->
  exists r, str {| anchor := a; tail := t ++ rel |}
            = str {| anchor := a; tail := t |} +:+ r.
Proof.
  unfold str. simpl. destruct (join_app t rel) as [r ->].
  destruct (String.eqb (a +:+ PyStr.join "/" t) "") eqn:He; [congruence|].
  intros _. exists r. rewrite <- sapp_assoc.
  destruct (a +:+ PyStr.join "/" t) as [|ch s]; [discriminate|]. reflexivity.
Qed.

Lemma str_eta (p : PurePath) : {| anchor := anchor p; tail := tail p |} = p.
Proof. destruct p. reflexivity. Qed.

Lemma excluded_below_root (dir : PurePath) exts (excl : list string)
    (pattern : string) (rel : list string) :
  In pattern excl -> PyStr.contains pattern (str dir) = true -> str dir <> "." ->
  should_process_file {| anchor := anchor dir; tail := tail dir ++ rel |}
    exts (Some excl) = false.
Proof.
  intros Hin Hc Hdot. apply (excluded_is_rejected _ _ _ pattern Hin).
  rewrite <- (str_eta dir) in Hdot.
  destruct (str_below _ _ rel Hdot) as [r ->]. rewrite str_eta.
  apply (contains_app pattern (str dir) "" r). exact Hc.
Qed.

(** The paths that the walk builds below a directory. *)
Lemma Path_walk_root (top : string) (ds : list string) :
  Forall (fun d => valid_name d = true) ds ->
  exists rel, Path (walk_root top ds)
              = {| anchor := anchor (Path top); tail := tail (Path top) ++ rel |}.
Proof.
  revert top. induction ds as [|d ds IH]; intros top Hds; simpl.
  - exists []. rewrite List.app_nil_r, str_eta. reflexivity.
  - inversion Hds as [|? ? Hd Hrest]; subst.
    destruct (IH (os_path_join top d) Hrest) as [rel ->].
    apply negb_true_iff in Hd. rewrite (Path_join top d Hd). simpl.
    exists (List.filter keep_part [d] ++ rel)%list. rewrite List.app_assoc. reflexivity.
Qed.

End FilterFacts.

(** * Properties of the Filter *)

(** C5. A path whose extension, compared case-insensitively, is in the
    fixed binary deny-list is rejected by [should_process_file], whatever
    the extension allow-list and the exclude patterns are. *)
Theorem binary_extension_never_processed (file_path : PurePath)
    (extensions : option (gset string)) (exclude_patterns : option (list string)) :
  PyStr.lower (suffix file_path) ∈ binary_extensions ->
  should_process_file file_path extensions exclude_patterns = false.
Proof.
  intros Hbin. unfold should_process_file.
  destruct (set_truthy extensions && _); [reflexivity|].
  destruct (list_truthy exclude_patterns && _); [reflexivity|].
  rewrite bool_decide_eq_true_2 by exact Hbin. reflexivity.
Qed.

(** A [.PNG] file is rejected even with [.png] in the allow-list. *)
Lemma binary_extension_never_processed_witness :
  should_process_file (Path "photos/IMG.PNG") (Some {[ ".png" ]}) None = false.
Proof.
  apply binary_extension_never_processed.
  apply (bool_decide_unpack (_ ∈ binary_extensions)). vm_compute. exact I.
Defined.

(** C10, as stated, fails for the root [.]: [str(Path('.') / 'Makefile')]
    is ['Makefile'], so the pattern [.], a substring of the root's string
    ['.'], does not exclude the file, and the run processes it. *)
Lemma root_dot_pattern_not_excluded :
  In "." ["."] /\
  PyStr.contains "." (str (Path ".")) = true /\
  should_process_file (truediv (Path (str (Path "."))) "Makefile") None (Some ["."]) = true /\
  snd (process_directory None (Some ["."]) true (Path ".") (DirTree ["Makefile"] [])
         (start {[ "Makefile" := {| data := ["a"%byte; x0a]; readable := true;
                                    writable := true |} ]}))
  = Returned {| total_files := 1; modified_files := 1; total_bytes_removed := 1 |}.
Proof.
  split; [left; reflexivity|].
  split; [vm_compute; reflexivity|].
  split; vm_compute; reflexivity.
Qed.

(** C10, amended. Exclude patterns are matched against the whole path
    string, which starts with the string of the root directory whenever
    that string is not [.]: for an exclude pattern that is a substring of
    the string of such a root, [should_process_file] returns [False] for
    every file in the tree, so the run processes no file: it opens none,
    changes none and ends with all three totals at zero. *)
Theorem exclude_pattern_in_root (directory pattern : string)
    (exts : option (gset string)) (excl : list string) (dry : bool)
    (t : dirtree) (store : gmap string file) :
  In pattern excl ->
  PyStr.contains pattern (str (Path directory)) = true ->
  str (Path directory) <> "." ->
  valid_tree t = true ->
  (forall ds file,
     Forall (fun d => valid_name d = true) ds -> valid_name file = true ->
     should_process_file
       (truediv (Path (walk_root (str (Path directory)) ds)) file) exts (Some excl)
     = false) /\
  exists w',
    process_directory exts (Some excl) dry (Path directory) t (start store)
    = (w', Returned no_counts) /\
    fs w' = store /\
    Forall (fun ev => is_open ev = false) (trace w').
Proof.
  intros Hin Hc Hdot Hvalid.
  pose proof (Path_str _ (Path_wf directory)) as Hroot.
  assert (forall root file, (exists rel, Path root
            = {| anchor := anchor (Path directory);
                 tail := tail (Path directory) ++ rel |}) ->
          valid_name file = true ->
          should_process_file (truediv (Path root) file) exts (Some excl) = false)
    as Hreject.
  { intros root file [rel Hrel] Hfile%negb_true_iff.
    rewrite (truediv_name _ _ Hfile), Hrel. simpl. rewrite <- List.app_assoc.
    apply (excluded_below_root _ _ _ pattern); assumption. }
  split.
  - intros ds file Hds Hfile. apply Hreject; [|exact Hfile].
    destruct (Path_walk_root (str (Path directory)) ds Hds) as [rel Hrel].
    rewrite Hroot in Hrel. eauto.
  - destruct (process_directory_hoare exts (Some excl) dry
                (fun root => exists rel, Path root
                   = {| anchor := anchor (Path directory);
                        tail := tail (Path directory) ++ rel |})
                (fun c w => c = no_counts /\ fs w = store /\
                            Forall (fun ev => is_open ev = false) (trace w)))
      with (directory := Path directory) (t := t) (w := start store)
      as (w' & c & Hrun & -> & Hfs & Htr).
    + intros root c w _ (-> & Hfs & Htr). repeat split; [exact Hfs|].
      simpl. apply Forall_app. split; [exact Htr | repeat constructor].
    + intros line c w (-> & Hfs & Htr). repeat split; [exact Hfs|].
      simpl. apply Forall_app. split; [exact Htr | repeat constructor].
    + intros root file c Hr Hfile w Hw. exists w, c. split; [|exact Hw].
      unfold process_file. rewrite (Hreject root file Hr Hfile).
      destruct (PyStr.startswith file "."); reflexivity.
    + intros root d [rel Hrel] Hd%negb_true_iff _.
      rewrite (Path_join root d Hd), Hrel. simpl.
      exists (rel ++ List.filter keep_part [d])%list. rewrite List.app_assoc. reflexivity.
    + exact Hvalid.
    + exists []. rewrite List.app_nil_r, str_eta. exact Hroot.
    + repeat split. constructor.
    + exists w'. auto.
Qed.

(** A root that contains [venv], with the pattern [venv] excluded. *)
Lemma exclude_pattern_in_root_witness :
  should_process_file
    (truediv (Path (walk_root (str (Path "/home/u/venv-tools")) ["src"])) "a.txt")
    None (Some [".git"; "venv"]) = false /\
  exists w',
    process_directory None (Some [".git"; "venv"]) false (Path "/home/u/venv-tools")
      (DirTree ["README"] [("src", DirTree ["a.txt"] [])])
      (start {[ "/home/u/venv-tools/README" :=
                  {| data := ["a"%byte; x0a]; readable := true; writable := true |} ]})
    = (w', Returned no_counts) /\
    fs w' = {[ "/home/u/venv-tools/README" :=
                  {| data := ["a"%byte; x0a]; readable := true; writable := true |} ]} /\
    Forall (fun ev => is_open ev = false) (trace w').
Proof.
  destruct (exclude_pattern_in_root "/home/u/venv-tools" "venv" None [".git"; "venv"] false
              (DirTree ["README"] [("src", DirTree ["a.txt"] [])])
              {[ "/home/u/venv-tools/README" :=
                  {| data := ["a"%byte; x0a]; readable := true; writable := true |} ]})
    as [Hfilter Hrun].
  - right. left. reflexivity.
  - vm_compute. reflexivity.
  - vm_compute. discriminate.
  - vm_compute. reflexivity.
  - split; [|exact Hrun].
    apply (Hfilter ["src"] "a.txt"); [repeat constructor | reflexivity].
Defined.

(** * Properties of the Walker *)

(** C6, as stated, fails when the root of the walk is itself hidden: with
    the root [.cfg] and the default exclude patterns, the file
    [.cfg/a.txt], which lies under the directory [.cfg], is opened and
    rewritten. *)
Lemma hidden_root_is_walked :
  let w := fst (process_directory None
                  (Some [".git"; "__pycache__"; "node_modules"; ".venv"; "venv"]) false
                  (Path ".cfg") (DirTree ["a.txt"] [])
                  (start {[ ".cfg/a.txt" := file_of ["x"%byte; x0a] ]})) in
  visited w ".cfg/a.txt" /\
  under_hidden_dir ".cfg/a.txt" /\
  fs w !! ".cfg/a.txt" = Some (file_of ["x"%byte]).
Proof.
  split; [|split].
  - exists (OpenRead ".cfg/a.txt"). split; [|reflexivity].
    vm_compute. do 3 right. left. reflexivity.
  - exists ".cfg". split; [left|]; reflexivity.
  - vm_compute. reflexivity.
Qed.

Section HiddenPruned.

Variables (exts : option (gset string)) (excl : option (list string)) (dry : bool).
Variable dir : PurePath.

Let good (ev : event) : Prop :=
  forall p, event_path ev = Some p -> visible_below dir p.

Let reached (root : string) : Prop := visible_below dir root.

Lemma visible_file (root file : string) :
  reached root -> valid_name file = true -> hidden file = false ->
  visible_below dir (str (truediv (Path root) file)).
Proof.
  intros (rel & Hrel & Hvis) Hfile%negb_true_iff Hhid.
  pose proof (Path_wf root) as [Ha Ht]. rewrite Hrel in Ha, Ht. simpl in Ha, Ht.
  rewrite (truediv_name _ _ Hfile), Hrel. simpl.
  exists (rel ++ List.filter keep_part [file])%list. split.
  - rewrite List.app_assoc. apply Path_str. split; [exact Ha|]. simpl.
    apply Forall_app. split; [exact Ht|].
    apply (filter_components [file]). repeat constructor. exact Hfile.
  - apply Forall_app. split; [exact Hvis|].
    simpl. destruct (keep_part file); repeat constructor. exact Hhid.
Qed.

Lemma process_file_visible (root file : string) (c : counters) :
  reached root -> valid_name file = true ->
  hoare (fun w => Forall good (trace w))
    (process_file exts excl dry root file c)
    (fun _ w => Forall good (trace w)).
Proof.
  intros Hroot Hfile w Hw.
  destruct (total_run _ w (process_file_total exts excl dry root file c))
    as (w' & c' & Hrun).
  exists w', c'. split; [exact Hrun|].
  destruct (PyStr.startswith file ".") eqn:Hhid.
  - unfold process_file in Hrun. rewrite Hhid in Hrun.
    injection Hrun as <- _. exact Hw.
  - destruct (process_file_emits exts excl dry root file c w) as (evs & Htr & Hevs).
    rewrite Hrun in Htr. simpl in Htr. rewrite Htr.
    apply Forall_app. split; [exact Hw|].
    eapply Forall_impl; [exact Hevs|].
    intros ev [Hnone | Hsome] p Hp; [congruence|].
    rewrite Hsome in Hp. injection Hp as <-.
    apply visible_file; assumption.
Qed.

Lemma reached_subdir (root d : string) :
  reached root -> valid_name d = true -> PyStr.startswith d "." = false ->
  reached (os_path_join root d).
Proof.
  intros (rel & Hrel & Hvis) Hd%negb_true_iff Hhid.
  exists (rel ++ List.filter keep_part [d])%list. split.
  - rewrite (Path_join root d Hd), Hrel. simpl. rewrite List.app_assoc. reflexivity.
  - apply Forall_app. split; [exact Hvis|].
    simpl. destruct (keep_part d); repeat constructor. exact Hhid.
Qed.

Lemma run_visits_visible (t : dirtree) (store : gmap string file) :
  wf_path dir -> valid_tree t = true ->
  exists w' c,
    process_directory exts excl dry dir t (start store) = (w', Returned c) /\
    Forall good (trace w').
Proof.
  intros Hdir Hvalid.
  apply (process_directory_hoare exts excl dry reached
           (fun _ w => Forall good (trace w))); try assumption.
  - intros root c w Hroot Hw. simpl. apply Forall_app. split; [exact Hw|].
    repeat constructor. intros p [= <-]. exact Hroot.
  - intros line c w Hw. simpl. apply Forall_app. split; [exact Hw|].
    repeat constructor. intros p [=].
  - intros root file c. apply process_file_visible.
  - apply reached_subdir.
  - exists []. split; [|constructor].
    rewrite List.app_nil_r, str_eta. apply Path_str. exact Hdir.
  - constructor.
Qed.

End HiddenPruned.

Lemma in_removelast {A} (x : A) (l : list A) : In x (removelast l) -> In x l.
Proof.
  induction l as [|y l IH]; simpl; [auto|].
  destruct l; [intros [] | intros [-> | H]; [left; reflexivity | right; auto]].
Qed.

(** C6, amended. No file or directory lying under a hidden subdirectory
    found below the root of the walk is ever visited: every directory
    that the run lists and every file that it opens has the path of the
    root directory followed by components none of which starts with a
    dot, for every configuration (extensions, exclude patterns, dry-run or
    apply). The path of the root directory itself is not checked: a
    visited path lies under a hidden directory only when that directory
    is part of the path of the root. *)
Theorem hidden_subdirectories_never_visited (directory : string)
    (exts : option (gset string)) (excl : option (list string)) (dry : bool)
    (t : dirtree) (store : gmap string file) (p : string) :
  valid_tree t = true ->
  visited (fst (process_directory exts excl dry (Path directory) t (start store))) p ->
  visible_below (Path directory) p /\
  (under_hidden_dir p ->
   exists d, In d (tail (Path directory)) /\ hidden d = true).
Proof.
  intros Hvalid (ev & Hin & Hp).
  destruct (run_visits_visible exts excl dry (Path directory) t store
              (Path_wf directory) Hvalid) as (w' & c & Hrun & Hgood).
  rewrite Hrun in Hin. simpl in Hin.
  rewrite List.Forall_forall in Hgood.
  pose proof (Hgood ev Hin p Hp) as Hvisible.
  split; [exact Hvisible|].
  destruct Hvisible as (rel & Hpath & Hrel).
  intros (d & Hd%in_removelast & Hhidden). rewrite Hpath in Hd. simpl in Hd.
  apply List.in_app_or in Hd as [Hd | Hd]; [eauto|].
  rewrite List.Forall_forall in Hrel. rewrite (Hrel d Hd) in Hhidden. discriminate.
Qed.

(** In a tree with a [.git] directory and a hidden file, the run opens
    [proj/src/a.txt], which is below the root through [src] only. *)
Lemma hidden_subdirectories_never_visited_witness :
  visible_below (Path "proj") "proj/src/a.txt".
Proof.
  apply (hidden_subdirectories_never_visited "proj" None None false
           (DirTree ["README"] [(".git", DirTree ["config"] []);
                                ("src", DirTree ["a.txt"; ".hidden.txt"] [])])
           ∅ "proj/src/a.txt").
  - reflexivity.
  - exists (OpenRead "proj/src/a.txt"). split; [|reflexivity].
    vm_compute. tauto.
Defined.

Section DryRunFacts.

Lemma dry_run_file_unreadable (p : PurePath) (c : counters) (w : world) (e : OSError) :
  read_error w p = Some e ->
  dry_run_file p c w
  = (log (Stderr (error_line "Error reading " p e)) (log (OpenRead (str p)) w),
     Returned c).
Proof.
  intros He. unfold dry_run_file, try_except.
  rewrite (bind_raised _ _ _ _ _ (read_binary_fails p w e He)). reflexivity.
Qed.

Lemma dry_run_file_readable (p : PurePath) (c : counters) (w : world) (f : file) :
  fs w !! str p = Some f -> readable f = true ->
  dry_run_file p c w
  = if bytes_would_remove (data f) >? 0
    then (log (Stdout ("WOULD MODIFY: " +:+ str p +:+ " ("
                       +:+ pretty (bytes_would_remove (data f)) +:+ " bytes)"))
            (log (OpenRead (str p)) w),
          Returned (count_modified c (bytes_would_remove (data f))))
    else (log (OpenRead (str p)) w, Returned c).
Proof.
  intros Hf Hr. unfold dry_run_file, try_except.
  rewrite (bind_returned _ _ _ _ _ (read_binary_ok p w f Hf Hr)).
  destruct (truthy (data f)) eqn:Ht.
  - cbv zeta. fold (bytes_would_remove (data f)).
    destruct (bytes_would_remove (data f) >? 0); reflexivity.
  - destruct (data f); [|discriminate]. reflexivity.
Qed.

Lemma apply_file_unmodified (p : PurePath) (c : counters) (w w' : world) :
  remove_trailing_newlines p w = (w', Returned (false, 0)) ->
  apply_file p c w = (w', Returned c).
Proof.
  intros H. unfold apply_file. rewrite (bind_returned _ _ _ _ _ H). reflexivity.
Qed.

Lemma apply_file_modified (p : PurePath) (c : counters) (w w' : world) (n : Z) :
  remove_trailing_newlines p w = (w', Returned (true, n)) ->
  apply_file p c w
  = (log (Stdout ("Modified: " +:+ str p +:+ " (" +:+ pretty n +:+ " bytes removed)")) w',
     Returned (count_modified c n)).
Proof.
  intros H. unfold apply_file. rewrite (bind_returned _ _ _ _ _ H). reflexivity.
Qed.

End DryRunFacts.

(** C3. On every byte sequence the loop written out in the dry-run branch
    computes the same number of bytes to remove as the loop of
    [remove_trailing_newlines]; and on a file with that content that can
    be read and written, the dry-run branch and the apply branch leave the
    same totals, while the dry-run branch leaves every file as it was. *)
Theorem dry_run_computes_same_bytes_removed (content : bytes) :
  bytes_would_remove content = bytes_removed content /\
  forall (file_path : PurePath) (c : counters) (w : world) (f : file),
    fs w !! str file_path = Some f -> data f = content ->
    readable f = true -> writable f = true ->
    exists w1 w2 c',
      dry_run_file file_path c w = (w1, Returned c') /\
      apply_file file_path c w = (w2, Returned c') /\
      c' = (if bytes_removed content >? 0
            then count_modified c (bytes_removed content) else c) /\
      fs w1 = fs w.
Proof.
  assert (bytes_would_remove content = bytes_removed content) as Heq.
  { unfold bytes_would_remove, bytes_removed. cbv zeta.
    rewrite dry_run_loop_eq. reflexivity. }
  split; [exact Heq|].
  intros file_path c w f Hf <- Hr Hw.
  rewrite (dry_run_file_readable _ c _ _ Hf Hr), Heq.
  destruct (bytes_removed (data f) >? 0) eqn:Hpos.
  - apply Z.gtb_lt in Hpos.
    rewrite (apply_file_modified _ c _ _ _
               (remove_trailing_newlines_modified _ _ _ Hf Hr Hw Hpos)).
    eauto 10.
  - assert (bytes_removed (data f) = 0) as H0.
    { pose proof (trim_loop_length (data f)) as Hle.
      unfold bytes_removed, len in *. cbv zeta in *.
      destruct (Z.gtb_spec (Z.of_nat (length (data f))
                            - Z.of_nat (length (trim_loop (data f)))) 0);
        [discriminate | lia]. }
    rewrite (apply_file_unmodified _ c _ _
               (remove_trailing_newlines_unchanged _ _ _ Hf Hr H0)).
    eauto 10.
Qed.

(** The second example of the specification: [b"h\r\n\r\n"], 4 bytes. *)
Lemma dry_run_computes_same_bytes_removed_witness :
  exists w1 w2 c',
    dry_run_file (Path "a.txt") no_counts
      (start {[ "a.txt" := file_of ["h"%byte; x0d; x0a; x0d; x0a] ]}) = (w1, Returned c') /\
    apply_file (Path "a.txt") no_counts
      (start {[ "a.txt" := file_of ["h"%byte; x0d; x0a; x0d; x0a] ]}) = (w2, Returned c') /\
    c' = {| total_files := 0; modified_files := 1; total_bytes_removed := 4 |} /\
    fs w1 = {[ "a.txt" := file_of ["h"%byte; x0d; x0a; x0d; x0a] ]}.
Proof.
  destruct (proj2 (dry_run_computes_same_bytes_removed ["h"%byte; x0d; x0a; x0d; x0a])
              (Path "a.txt") no_counts
              (start {[ "a.txt" := file_of ["h"%byte; x0d; x0a; x0d; x0a] ]})
              (file_of ["h"%byte; x0d; x0a; x0d; x0a]))
    as (w1 & w2 & c' & Hdry & Happly & Hc & Hfs); try reflexivity.
  exists w1, w2, c'. split; [exact Hdry|]. split; [exact Happly|].
  split; [|exact Hfs]. rewrite Hc. vm_compute. reflexivity.
Defined.

Lemma process_directory_total exts excl dry (directory : PurePath) (t : dirtree) :
  total (process_directory exts excl dry directory t).
Proof.
  unfold process_directory, print.
  repeat first [apply os_walk_total | total_step | case_match].
Qed.

(** C7. When reading or writing one file raises an I/O error, the error
    is reported on the diagnostic stream in a line that names the path and
    the cause, [remove_trailing_newlines] returns [(False, 0)], the totals
    of modified files and of removed bytes are not incremented for the
    file, and the loop over the files goes on with the next file; no run
    of [process_directory] ends with an exception. *)
Theorem file_io_error_is_contained
    (exts : option (gset string)) (excl : option (list string)) (dry : bool)
    (w : world) (root file : string) (e : OSError) (c : counters) (rest : list string) :
  let file_path := truediv (Path root) file in
  PyStr.startswith file "." = false ->
  should_process_file file_path exts excl = true ->
  io_failure dry w file_path e ->
  exists w' opens,
    trace w' = (trace w ++ opens
                ++ [Stderr (error_prefix dry +:+ str file_path +:+ ": " +:+ OSError_str e)])%list /\
    Forall (fun ev => is_open ev = true) opens /\
    (dry = false -> remove_trailing_newlines file_path w = (w', Returned (false, 0))) /\
    process_file exts excl dry root file c w = (w', Returned (count_file c)) /\
    modified_files (count_file c) = modified_files c /\
    total_bytes_removed (count_file c) = total_bytes_removed c /\
    for_files exts excl dry root (file :: rest) c w
    = for_files exts excl dry root rest (count_file c) w' /\
    forall directory t w0, exists w1 c1,
      process_directory exts excl dry directory t w0 = (w1, Returned c1).
Proof.
  intros file_path Hvis Hshould Hfail.
  assert (exists w' opens,
    trace w' = (trace w ++ opens
                ++ [Stderr (error_prefix dry +:+ str file_path +:+ ": " +:+ OSError_str e)])%list /\
    Forall (fun ev => is_open ev = true) opens /\
    (dry = false -> remove_trailing_newlines file_path w = (w', Returned (false, 0))) /\
    (if dry then dry_run_file file_path (count_file c) w
     else apply_file file_path (count_file c) w) = (w', Returned (count_file c)))
    as (w' & opens & Htr & Hopens & Hrtn & Hstep).
  { destruct Hfail as [e Hread | f -> Hf Hr Hw Hpos].
    - destruct dry.
      + eexists _, [OpenRead (str file_path)].
        rewrite (dry_run_file_unreadable _ _ _ _ Hread).
        split; [|split; [|split]]; [ | | discriminate | reflexivity]; simpl.
        * rewrite <- List.app_assoc. reflexivity.
        * repeat constructor.
      + pose proof (remove_trailing_newlines_unreadable _ _ _ Hread) as Hrtn.
        eexists _, [OpenRead (str file_path)].
        rewrite (apply_file_unmodified _ _ _ _ Hrtn).
        split; [|split; [|split]]; [ | | intros _; exact Hrtn | reflexivity]; simpl.
        * rewrite <- List.app_assoc. reflexivity.
        * repeat constructor.
    - pose proof (remove_trailing_newlines_unwritable _ _ _ Hf Hr Hw Hpos) as Hrtn.
      eexists _, [OpenRead (str file_path); OpenWrite (str file_path)].
      rewrite (apply_file_unmodified _ _ _ _ Hrtn).
      split; [|split; [|split]]; [ | | intros _; exact Hrtn | reflexivity]; simpl.
      + rewrite <- !List.app_assoc. reflexivity.
      + repeat constructor. }
  assert (process_file exts excl dry root file c w = (w', Returned (count_file c)))
    as Hfile.
  { unfold process_file. fold file_path. rewrite Hvis, Hshould. simpl.
    destruct dry; exact Hstep. }
  exists w', opens. repeat (split; [assumption || reflexivity|]).
  split.
  - unfold for_files. simpl. rewrite (bind_returned _ _ _ _ _ Hfile). reflexivity.
  - intros directory t w0. apply total_run, process_directory_total.
Qed.

(** A file that is listed but is gone when it is opened: the error line is
    printed, [(False, 0)] is returned and the loop goes on with [b.txt]. *)
Lemma file_io_error_is_contained_witness :
  exists w',
    trace w' = [OpenRead "d/gone.txt";
                Stderr "Error processing d/gone.txt: [Errno 2] No such file or directory: 'd/gone.txt'"] /\
    remove_trailing_newlines (Path "d/gone.txt") (start ∅) = (w', Returned (false, 0)) /\
    for_files None None false "d" ["gone.txt"; "b.txt"] no_counts (start ∅)
    = for_files None None false "d" ["b.txt"] (count_file no_counts) w'.
Proof.
  destruct (file_io_error_is_contained None None false (start ∅) "d" "gone.txt"
              {| os_errno := ENOENT; os_filename := "d/gone.txt" |} no_counts ["b.txt"])
    as (w' & opens & Htr & Hopens & Hrtn & Hfile & _ & _ & Hnext & _).
  - reflexivity.
  - vm_compute. reflexivity.
  - apply read_fails. reflexivity.
  - pose proof (Hrtn eq_refl) as Hrun.
    exists w'. split; [|split; [exact Hrun | exact Hnext]].
    replace w' with (fst (remove_trailing_newlines (truediv (Path "d") "gone.txt") (start ∅)))
      by (rewrite Hrun; reflexivity).
    vm_compute. reflexivity.
Defined.

Section FileCases.

Lemma bytes_removed_nonneg (content : bytes) : 0 <= bytes_removed content.
Proof.
  unfold bytes_removed, len. cbv zeta. pose proof (trim_loop_length content). lia.
Qed.

Lemma read_error_none (w : world) (p : PurePath) :
  read_error w p = None ->
  exists f, fs w !! str p = Some f /\ readable f = true.
Proof.
  unfold read_error. destruct (fs w !! str p) as [f|]; [|discriminate].
  destruct (readable f) eqn:Hr; [eauto | discriminate].
Qed.

Lemma process_file_step exts excl dry (root file : string) (c : counters) (w : world) :
  exists w' c',
    process_file exts excl dry root file c w = (w', Returned c') /\
    file_step exts excl dry root file c w w' c'.
Proof.
  set (p := truediv (Path root) file).
  destruct (qualifies exts excl root file) eqn:Hq.
  2: { exists w, c. split; [|apply step_skipped; exact Hq].
       unfold qualifies in Hq. unfold process_file. fold p in Hq |- *.
       destruct (PyStr.startswith file "."); [reflexivity|].
       simpl in Hq. rewrite Hq. reflexivity. }
  assert (process_file exts excl dry root file c
          = if dry then dry_run_file p (count_file c) else apply_file p (count_file c))
    as ->.
  { unfold qualifies in Hq. unfold process_file. fold p in Hq |- *.
    apply andb_true_iff in Hq as [Hvis Hok]. apply negb_true_iff in Hvis.
    rewrite Hvis, Hok. reflexivity. }
  destruct (read_error w p) as [e|] eqn:Hread.
  - eexists _, _. split; [|apply (step_read_error _ _ _ _ _ _ _ e Hq Hread)].
    destruct dry.
    + apply dry_run_file_unreadable. exact Hread.
    + apply apply_file_unmodified, remove_trailing_newlines_unreadable. exact Hread.
  - destruct (read_error_none _ _ Hread) as (f & Hf & Hr).
    destruct (Z.eq_dec (bytes_removed (data f)) 0) as [H0 | Hne].
    + eexists _, _. split; [|apply (step_clean _ _ _ _ _ _ _ f Hq Hf Hr H0)].
      destruct dry.
      * rewrite (dry_run_file_readable _ _ _ _ Hf Hr).
        replace (bytes_would_remove (data f)) with (bytes_removed (data f)).
        -- rewrite H0. reflexivity.
        -- unfold bytes_would_remove, bytes_removed. cbv zeta.
           rewrite dry_run_loop_eq. reflexivity.
      * apply apply_file_unmodified.
        apply (remove_trailing_newlines_unchanged _ _ _ Hf Hr H0).
    + assert (0 < bytes_removed (data f)) as Hpos
        by (pose proof (bytes_removed_nonneg (data f)); lia).
      destruct dry eqn:Hdry.
      * eexists _, _. split; [|apply (step_would_modify _ _ _ _ _ _ _ f Hq eq_refl Hf Hr Hpos)].
        rewrite (dry_run_file_readable _ _ _ _ Hf Hr).
        replace (bytes_would_remove (data f)) with (bytes_removed (data f)).
        -- replace (bytes_removed (data f) >? 0) with true; [reflexivity|].
           symmetry. apply Z.gtb_lt. exact Hpos.
        -- unfold bytes_would_remove, bytes_removed. cbv zeta.
           rewrite dry_run_loop_eq. reflexivity.
      * destruct (writable f) eqn:Hw.
        -- eexists _, _.
           split; [|apply (step_modified _ _ _ _ _ _ _ f Hq eq_refl Hf Hr Hw Hpos)].
           rewrite (apply_file_modified _ _ _ _ _
                      (remove_trailing_newlines_modified _ _ _ Hf Hr Hw Hpos)).
           unfold log, trimmed_file. simpl. rewrite Hr, <- List.app_assoc. reflexivity.
        -- eexists _, _.
           split; [|apply (step_write_error _ _ _ _ _ _ _ f Hq eq_refl Hf Hr Hw Hpos)].
           apply apply_file_unmodified.
           apply (remove_trailing_newlines_unwritable _ _ _ Hf Hr Hw Hpos).
Qed.

End FileCases.

(** * Further properties of the Trimmer on a file *)


(** X4. A readable file that is empty or does not end in LF or CR is
    opened for reading only: it is not opened for writing, no file
    changes, nothing is printed and [(False, 0)] is returned. *)
Theorem clean_file_is_not_reopened (file_path : PurePath) (w : world) (f : file) :
  fs w !! str file_path = Some f -> readable f = true ->
  (data f = [] \/ exists pre c, data f = pre ++ [c] /\ c <> LF /\ c <> CR)%list ->
  remove_trailing_newlines file_path w
  = (log (OpenRead (str file_path)) w, Returned (false, 0)).
Proof.
  intros Hf Hr Hclean%loop_cond_false.
  apply (remove_trailing_newlines_unchanged _ _ _ Hf Hr).
  apply bytes_removed_zero. exact Hclean.
Qed.

Lemma clean_file_is_not_reopened_witness :
  remove_trailing_newlines (Path "a.txt") (start {[ "a.txt" := file_of ["h"%byte; "i"%byte] ]})
  = (log (OpenRead "a.txt") (start {[ "a.txt" := file_of ["h"%byte; "i"%byte] ]}),
     Returned (false, 0)).
Proof.
  apply (clean_file_is_not_reopened (Path "a.txt")
           (start {[ "a.txt" := file_of ["h"%byte; "i"%byte] ]})
           (file_of ["h"%byte; "i"%byte])).
  - vm_compute. reflexivity.
  - reflexivity.
  - right. exists ["h"%byte], "i"%byte. repeat split; discriminate.
Defined.

(** X5. After [remove_trailing_newlines] has rewritten a file, a second
    call on the same file finds nothing to remove: it returns
    [(False, 0)] and only opens the file for reading. *)
Theorem second_pass_changes_nothing (file_path : PurePath) (w : world) (f : file) :
  fs w !! str file_path = Some f -> readable f = true -> writable f = true ->
  0 < bytes_removed (data f) ->
  exists w1,
    remove_trailing_newlines file_path w = (w1, Returned (true, bytes_removed (data f))) /\
    remove_trailing_newlines file_path w1
    = (log (OpenRead (str file_path)) w1, Returned (false, 0)).
Proof.
  intros Hf Hr Hw Hpos.
  eexists. split; [apply (remove_trailing_newlines_modified _ _ _ Hf Hr Hw Hpos)|].
  eapply remove_trailing_newlines_unchanged.
  - simpl. apply lookup_insert_eq.
  - reflexivity.
  - simpl. apply bytes_removed_zero, loop_cond_trim_loop.
Qed.

Lemma second_pass_changes_nothing_witness :
  exists w1,
    remove_trailing_newlines (Path "a.txt")
      (start {[ "a.txt" := file_of ["h"%byte; x0d; x0a] ]}) = (w1, Returned (true, 2)) /\
    remove_trailing_newlines (Path "a.txt") w1
    = (log (OpenRead "a.txt") w1, Returned (false, 0)).
Proof.
  destruct (second_pass_changes_nothing (Path "a.txt")
              (start {[ "a.txt" := file_of ["h"%byte; x0d; x0a] ]})
              (file_of ["h"%byte; x0d; x0a])) as (w1 & H1 & H2).
  - vm_compute. reflexivity.
  - reflexivity.
  - reflexivity.
  - vm_compute. reflexivity.
  - exists w1. split; [exact H1 | exact H2].
Defined.

(** * Invariants of the walk, on any tree *)
Section WalkInvariant.

Variables (exts : option (gset string)) (excl : option (list string)) (dry : bool).
Variable I : counters -> world -> Prop.

Hypothesis H_event : forall ev c w, is_open ev = false -> I c w -> I c (log ev w).
Hypothesis H_file : forall root file c w w' c',
  I c w -> file_step exts excl dry root file c w w' c' -> I c' w'.

Lemma process_file_invariant (root file : string) (c : counters) :
  hoare (I c) (process_file exts excl dry root file c) I.
Proof.
  intros w Hw. destruct (process_file_step exts excl dry root file c w)
    as (w' & c' & Hrun & Hstep).
  exists w', c'. split; [exact Hrun | exact (H_file _ _ _ _ _ _ Hw Hstep)].
Qed.

Lemma os_walk_invariant : forall (t : dirtree) (top : string) (c : counters),
  hoare (I c) (os_walk (walk_body exts excl dry) top t c) I.
Proof.
  induction t as [files subdirs IH] using dirtree_ind; intros top c w Hw. simpl.
  rewrite (bind_returned _ _ _ (log (Scandir top) w) tt) by reflexivity.
  destruct (hoare_for_each I (process_file exts excl dry top) files) with
    (s := c) (w := log (Scandir top) w) as (w1 & c1 & Hrun & H1).
  { intros file c' _. apply process_file_invariant. }
  { apply H_event; [reflexivity | exact Hw]. }
  assert (walk_body exts excl dry top (map fst subdirs) files c (log (Scandir top) w)
          = (w1, Returned (c1, prune_hidden (map fst subdirs)))) as Hbody.
  { unfold walk_body, for_files. rewrite (bind_returned _ _ _ _ _ Hrun). reflexivity. }
  rewrite (bind_returned _ _ _ _ _ Hbody).
  apply hoare_for_each; [|exact H1].
  intros dirname c' _ w' Hw'.
  destruct (find_subdir_cases dirname
              (fun sub => os_walk (walk_body exts excl dry)
                            (os_path_join top dirname) sub c')
              (mret c') subdirs) as [-> | (sub & Hin & ->)].
  - exists w', c'. split; [reflexivity | exact Hw'].
  - rewrite List.Forall_forall in IH. apply (IH _ Hin); exact Hw'.
Qed.

Lemma process_directory_invariant (directory : PurePath) (t : dirtree) :
  hoare (I no_counts) (process_directory exts excl dry directory t) I.
Proof.
  unfold process_directory, print.
  eapply hoare_bind;
    [apply hoare_emit with (Q := fun _ => I no_counts); intros; apply H_event; auto
    |intros ?].
  eapply hoare_bind with (Q := fun _ => I no_counts); [|intros ?].
  { destruct dry; [apply hoare_emit; intros; apply H_event; auto
                  | apply (hoare_ret (fun _ => I no_counts))]. }
  eapply hoare_bind;
    [apply hoare_emit with (Q := fun _ => I no_counts); intros; apply H_event; auto
    |intros ?].
  eapply hoare_bind; [apply os_walk_invariant|intros c].
  repeat (eapply hoare_bind;
          [apply hoare_emit with (Q := fun _ => I c); intros; apply H_event; auto
          |intros ?]).
  intros w Hw. exists w, c. split; [reflexivity | exact Hw].
Qed.

End WalkInvariant.

Section TraversalFacts.

Variables (exts : option (gset string)) (excl : option (list string)) (dry : bool).

Lemma find_subdir_apply {B C} (h : B -> C) (dirname : string)
    (found : dirtree -> B) (missing : B) (entries : list (string * dirtree)) :
  h (find_subdir dirname found missing entries)
  = find_subdir dirname (fun sub => h (found sub)) (h missing) entries.
Proof.
  induction entries as [|[n sub] entries IH]; simpl; [reflexivity|].
  destruct (String.eqb n dirname); [reflexivity | exact IH].
Qed.

Lemma advances_refl (w : world) (c : counters) : advances w c w c [] [].
Proof. unfold advances. rewrite !List.app_nil_r. simpl. repeat split. lia. Qed.

Lemma advances_trans w c w1 c1 w2 c2 r1 s1 r2 s2 :
  advances w c w1 c1 r1 s1 -> advances w1 c1 w2 c2 r2 s2 ->
  advances w c w2 c2 (r1 ++ r2) (s1 ++ s2).
Proof.
  intros (Hr1 & Hs1 & Hn1) (Hr2 & Hs2 & Hn2). unfold advances.
  rewrite Hr2, Hr1, Hs2, Hs1, Hn2, Hn1, !List.app_assoc, length_app. repeat split. lia.
Qed.

Lemma for_each_advances {X} (step : X -> counters -> IO counters)
    (R S : X -> list string) (xs : list X) :
  (forall x c w, In x xs -> exists w' c',
      step x c w = (w', Returned c') /\ advances w c w' c' (R x) (S x)) ->
  forall c w, exists w' c',
    for_each xs step c w = (w', Returned c') /\
    advances w c w' c' (flat_map R xs) (flat_map S xs).
Proof.
  induction xs as [|x xs IH]; intros Hstep c w; simpl.
  - exists w, c. split; [reflexivity | apply advances_refl].
  - destruct (Hstep x c w (or_introl eq_refl)) as (w1 & c1 & Hrun & H1).
    rewrite (bind_returned _ _ _ _ _ Hrun).
    destruct (IH (fun y c' w' Hy => Hstep y c' w' (or_intror Hy)) c1 w1)
      as (w2 & c2 & Hrest & H2).
    exists w2, c2. split; [exact Hrest | exact (advances_trans _ _ _ _ _ _ _ _ _ _ H1 H2)].
Qed.

Lemma reads_app (a b : list event) : reads (a ++ b) = (reads a ++ reads b)%list.
Proof. apply flat_map_app. Qed.

Lemma scans_app (a b : list event) : scans (a ++ b) = (scans a ++ scans b)%list.
Proof. apply flat_map_app. Qed.

Lemma process_file_advances (root file : string) (c : counters) (w : world) :
  exists w' c',
    process_file exts excl dry root file c w = (w', Returned c') /\
    advances w c w' c'
      (if qualifies exts excl root file then [str (truediv (Path root) file)] else []) [].
Proof.
  destruct (process_file_step exts excl dry root file c w) as (w' & c' & Hrun & Hstep).
  exists w', c'. split; [exact Hrun|].
  destruct Hstep as [Hq | e Hq _ | f Hq _ _ _ | f Hq _ _ _ _ | f Hq _ _ _ _ _
                    | f Hq _ _ _ _ _]; rewrite Hq;
    unfold advances, log; simpl; rewrite ?reads_app, ?scans_app; simpl;
    rewrite ?List.app_nil_r, <- ?List.app_assoc; simpl; repeat split; lia.
Qed.

Lemma flat_map_filter {A B} (q : A -> bool) (g : A -> B) (l : list A) :
  flat_map (fun x => if q x then [g x] else []) l = map g (List.filter q l).
Proof.
  induction l as [|x l IH]; simpl; [reflexivity|].
  destruct (q x); simpl; rewrite IH; reflexivity.
Qed.

Lemma map_flat_map {A B C} (g : B -> C) (f : A -> list B) (l : list A) :
  map g (flat_map f l) = flat_map (fun x => map g (f x)) l.
Proof.
  induction l as [|x l IH]; simpl; [reflexivity|]. rewrite map_app, IH. reflexivity.
Qed.

Lemma flat_map_nil {A B} (l : list A) : flat_map (fun _ : A => @nil B) l = [].
Proof. induction l; simpl; auto. Qed.

Lemma find_subdir_advances (top dirname : string) (subdirs : list (string * dirtree)) :
  Forall (fun entry : string * dirtree =>
            forall top c w, exists w' c',
              os_walk (walk_body exts excl dry) top (snd entry) c w = (w', Returned c') /\
              advances w c w' c' (map str (walk_files exts excl top (snd entry)))
                (walk_dirs top (snd entry))) subdirs ->
  forall c w, exists w' c',
    find_subdir dirname
      (fun sub => os_walk (walk_body exts excl dry) (os_path_join top dirname) sub c)
      (mret c) subdirs w = (w', Returned c') /\
    advances w c w' c'
      (map str (find_subdir dirname
                  (fun sub => walk_files exts excl (os_path_join top dirname) sub)
                  [] subdirs))
      (find_subdir dirname
         (fun sub => walk_dirs (os_path_join top dirname) sub) [] subdirs).
Proof.
  induction 1 as [|[n sub] subdirs Hsub _ IH]; intros c w; simpl.
  - exists w, c. split; [reflexivity | apply advances_refl].
  - destruct (String.eqb n dirname); [apply Hsub | apply IH].
Qed.

Lemma os_walk_advances : forall (t : dirtree) (top : string) (c : counters) (w : world),
  exists w' c',
    os_walk (walk_body exts excl dry) top t c w = (w', Returned c') /\
    advances w c w' c' (map str (walk_files exts excl top t)) (walk_dirs top t).
Proof.
  induction t as [files subdirs IH] using dirtree_ind; intros top c w. simpl.
  rewrite (bind_returned _ _ _ (log (Scandir top) w) tt) by reflexivity.
  destruct (for_each_advances (process_file exts excl dry top)
              (fun file => if qualifies exts excl top file
                           then [str (truediv (Path top) file)] else [])
              (fun _ => []) files
              (fun file c' w' _ => process_file_advances top file c' w')
              c (log (Scandir top) w)) as (w1 & c1 & Hrun & H1).
  rewrite flat_map_filter, flat_map_nil in H1.
  assert (walk_body exts excl dry top (map fst subdirs) files c (log (Scandir top) w)
          = (w1, Returned (c1, prune_hidden (map fst subdirs)))) as Hbody.
  { unfold walk_body, for_files. rewrite (bind_returned _ _ _ _ _ Hrun). reflexivity. }
  rewrite (bind_returned _ _ _ _ _ Hbody).
  destruct (for_each_advances
              (fun dirname s =>
                 find_subdir dirname
                   (fun sub => os_walk (walk_body exts excl dry)
                                 (os_path_join top dirname) sub s)
                   (mret s) subdirs)
              (fun dirname =>
                 map str (find_subdir dirname
                            (fun sub => walk_files exts excl (os_path_join top dirname) sub)
                            [] subdirs))
              (fun dirname =>
                 find_subdir dirname
                   (fun sub => walk_dirs (os_path_join top dirname) sub) [] subdirs)
              (prune_hidden (map fst subdirs))
              (fun dirname c' w' _ => find_subdir_advances top dirname subdirs IH c' w')
              c1 w1) as (w2 & c2 & Hdirs & H2).
  exists w2, c2. split; [exact Hdirs|].
  assert (advances w c w1 c1
            (map str (map (truediv (Path top)) (List.filter (qualifies exts excl top) files)))
            [top]) as H01.
  { destruct H1 as (Hr & Hs & Hn). unfold advances, log in *. simpl in *.
    rewrite reads_app, scans_app in *. simpl in *.
    rewrite List.app_nil_r in Hr. rewrite List.app_nil_r in Hs.
    rewrite Hr, Hs, Hn, map_map, !length_map. repeat split; reflexivity. }
  pose proof (advances_trans _ _ _ _ _ _ _ _ _ _ H01 H2) as H.
  rewrite map_app, map_flat_map. exact H.
Qed.

Lemma bind_emit {B} (ev : event) (f : unit -> IO B) (w : world) :
  (emit ev ≫= f) w = f tt (log ev w).
Proof. reflexivity. Qed.

Lemma bind_ret {A B} (a : A) (f : A -> IO B) (w : world) : (mret a ≫= f) w = f a w.
Proof. reflexivity. Qed.

Lemma advances_after_stdout (line : string) w c w' c' r s :
  advances (log (Stdout line) w) c w' c' r s -> advances w c w' c' r s.
Proof.
  unfold advances, log. simpl. rewrite !reads_app, !scans_app. simpl.
  rewrite !List.app_nil_r. auto.
Qed.

Lemma advances_then_stdout (line : string) w c w' c' r s :
  advances w c w' c' r s -> advances w c (log (Stdout line) w') c' r s.
Proof.
  unfold advances, log. simpl. rewrite !reads_app, !scans_app. simpl.
  rewrite !List.app_nil_r. auto.
Qed.

Lemma process_directory_advances (directory : PurePath) (t : dirtree) (w : world) :
  exists w' c,
    process_directory exts excl dry directory t w = (w', Returned c) /\
    advances w no_counts w' c
      (map str (walk_files exts excl (str directory) t)) (walk_dirs (str directory) t).
Proof.
  unfold process_directory, print. rewrite bind_emit.
  assert (exists w0,
    (forall B (f : unit -> IO B),
      ((if dry then emit (Stdout "DRY RUN MODE - No files will be modified")
        else mret tt) ≫= f) (log (Stdout ("Processing directory: " +:+ str directory)) w)
      = f tt w0) /\
    forall c w' c' r s, advances w0 c w' c' r s -> advances w c w' c' r s)
    as (w0 & Hbind & Hw0).
  { destruct dry.
    - exists (log (Stdout "DRY RUN MODE - No files will be modified")
                (log (Stdout ("Processing directory: " +:+ str directory)) w)).
      split; [intros; apply bind_emit|].
      intros c w' c' r s H. do 2 apply advances_after_stdout in H. exact H.
    - exists (log (Stdout ("Processing directory: " +:+ str directory)) w).
      split; [intros; apply bind_ret|].
      intros c w' c' r s H. apply advances_after_stdout in H. exact H. }
  rewrite Hbind, bind_emit.
  destruct (os_walk_advances t (str directory) no_counts (log (Stdout "") w0))
    as (w1 & c & Hwalk & H1).
  rewrite (bind_returned _ _ _ _ _ Hwalk), !bind_emit.
  eexists _, c. split; [reflexivity|].
  do 4 apply advances_then_stdout.
  apply Hw0, advances_after_stdout with (line := ""). exact H1.
Qed.

End TraversalFacts.

(** * Further properties of the Walker *)


(** X7. The total of files processed is the same in dry-run and in apply
    mode, and does not depend on what the files hold or on which of them
    can be opened. *)
Theorem files_processed_is_independent_of_mode_and_contents
    (exts : option (gset string)) (excl : option (list string)) (dry1 dry2 : bool)
    (directory : PurePath) (t : dirtree) (w1 w2 : world) :
  exists w1' c1 w2' c2,
    process_directory exts excl dry1 directory t w1 = (w1', Returned c1) /\
    process_directory exts excl dry2 directory t w2 = (w2', Returned c2) /\
    total_files c1 = total_files c2.
Proof.
  destruct (process_directory_advances exts excl dry1 directory t w1)
    as (w1' & c1 & Hrun1 & _ & _ & Hn1).
  destruct (process_directory_advances exts excl dry2 directory t w2)
    as (w2' & c2 & Hrun2 & _ & _ & Hn2).
  exists w1', c1, w2', c2. rewrite Hn1, Hn2. auto.
Qed.

(** X8. At the end of every run the totals are ordered: the files
    modified are at most the files processed, and at most the bytes
    removed (every modification removes at least one byte). *)
Theorem totals_are_ordered
    (exts : option (gset string)) (excl : option (list string)) (dry : bool)
    (directory : PurePath) (t : dirtree) (w : world) :
  exists w' c,
    process_directory exts excl dry directory t w = (w', Returned c) /\
    0 <= modified_files c <= total_files c /\
    modified_files c <= total_bytes_removed c.
Proof.
  apply (process_directory_invariant exts excl dry
           (fun c _ => 0 <= modified_files c <= total_files c /\
                       modified_files c <= total_bytes_removed c)).
  - auto.
  - intros root file c w0 w' c' Hc Hstep.
    destruct Hstep; simpl; lia.
  - simpl. lia.
Qed.

Lemma dry_run_keeps_files
    (exts : option (gset string)) (excl : option (list string))
    (directory : PurePath) (t : dirtree) (w : world) :
  exists w' c,
    process_directory exts excl true directory t w = (w', Returned c) /\
    fs w' = fs w.
Proof.
  apply (process_directory_invariant exts excl true (fun _ w' => fs w' = fs w)).
  - auto.
  - intros root file c w0 w' c' Hfs Hstep.
    destruct Hstep; try discriminate; exact Hfs.
  - reflexivity.
Qed.

(** X9. A dry run changes no file and opens no file for writing, for
    every tree, configuration and state of the files. *)
Theorem dry_run_changes_no_file
    (exts : option (gset string)) (excl : option (list string))
    (directory : PurePath) (t : dirtree) (w : world) :
  exists w' c,
    process_directory exts excl true directory t w = (w', Returned c) /\
    fs w' = fs w /\
    forall p, In (OpenWrite p) (trace w') -> In (OpenWrite p) (trace w).
Proof.
  apply (process_directory_invariant exts excl true
           (fun _ w' => fs w' = fs w /\
                        forall p, In (OpenWrite p) (trace w') -> In (OpenWrite p) (trace w))).
  - intros ev c w' Hev [Hfs Htr]. split; [exact Hfs|].
    intros p Hin. simpl in Hin. apply List.in_app_or in Hin as [Hin | [Heq | []]]; [auto|].
    subst ev. discriminate Hev.
  - intros root file c w0 w' c' [Hfs Htr] Hstep.
    destruct Hstep; try discriminate; (split; [exact Hfs|]); simpl;
      intros p Hin; repeat (apply List.in_app_or in Hin as [Hin | [Hin | []]];
                            [|discriminate]); auto.
  - auto.
Qed.



Section LowerFacts.



Lemma startswith_dot_lower (s : string) :
  PyStr.startswith (PyStr.lower s) "." = PyStr.startswith s ".".
Proof.
  destruct s as [|c s]; [reflexivity|].
  destruct c as [[] [] [] [] [] [] [] []]; try reflexivity.
  destruct s; reflexivity.
Qed.

Lemma startswith_dot_cons (s : string) : PyStr.startswith ("." +:+ s) "." = true.
Proof. destruct s; reflexivity. Qed.


Lemma normalize_extension_dot (ext : string) :
  PyStr.startswith (normalize_extension ext) "." = true.
Proof.
  unfold normalize_extension. destruct (PyStr.startswith ext ".") eqn:Hdot.
  - rewrite startswith_dot_lower. exact Hdot.
  - apply startswith_dot_cons.
Qed.


End LowerFacts.

(** * Further properties of the driver and of the Filter *)




(** X13. An empty exclude pattern excludes every file: the empty string
    occurs in every path. *)
Theorem empty_pattern_excludes_everything (file_path : PurePath)
    (extensions : option (gset string)) (patterns : list string) :
  In "" patterns ->
  should_process_file file_path extensions (Some patterns) = false.
Proof.
  intros Hin. apply (excluded_is_rejected _ _ _ "" Hin).
  apply contains_spec. exists "", (str file_path). reflexivity.
Qed.

Lemma empty_pattern_excludes_everything_witness :
  should_process_file (Path "src/a.txt") None (Some [".git"; ""]) = false.
Proof.
  apply (empty_pattern_excludes_everything (Path "src/a.txt") None [".git"; ""]).
  right. left. reflexivity.
Defined.

(** X14. When [--extensions] is given, a file whose name has no suffix (no
    dot, or only a leading or a final dot) is never accepted: every entry
    of the allow-list that [main] builds starts with a dot. *)
Theorem allow_list_rejects_names_without_suffix (args : Args) (given : list string)
    (file_path : PurePath) (exclude_patterns : option (list string)) :
  args_extensions args = Some given -> given <> [] ->
  suffix file_path = "" ->
  should_process_file file_path (main_extensions args) exclude_patterns = false.
Proof.
  intros Hgiven Hne Hsuffix. unfold main_extensions. rewrite Hgiven.
  destruct given as [|e given]; [contradiction|].
  unfold should_process_file. rewrite Hsuffix.
  replace (set_truthy _) with true.
  - replace (in_extensions _ _) with false; [reflexivity|].
    symmetry. apply bool_decide_eq_false. intros Hin.
    apply elem_of_list_to_set, list_elem_of_In, List.in_map_iff in Hin as (ext & Heq & _).
    pose proof (normalize_extension_dot ext) as Hdot. rewrite Heq in Hdot. discriminate.
  - symmetry. simpl. apply negb_true_iff, bool_decide_eq_false. set_solver.
Qed.

Lemma allow_list_rejects_names_without_suffix_witness :
  should_process_file (Path "proj/Makefile")
    (main_extensions {| args_directory := "proj"; args_extensions := Some ["txt"];
                        args_exclude := []; args_dry_run := false |})
    None = false.
Proof.
  apply (allow_list_rejects_names_without_suffix _ ["txt"]).
  - reflexivity.
  - discriminate.
  - reflexivity.
Defined.


(** X16. With [--dry-run], [main] changes no file, whatever is found at
    the directory given. *)
Theorem main_dry_run_changes_no_file (args : Args) (found : path_kind) (w : world) :
  args_dry_run args = true ->
  fs (fst (main args found w)) = fs w.
Proof.
  intros Hdry. destruct found as [| |t]; unfold main; simpl; try reflexivity.
  rewrite Hdry.
  destruct (dry_run_keeps_files (main_extensions args) (Some (args_exclude args))
              (Path (args_directory args)) t w) as (w' & c & Hrun & Hfs).
  rewrite Hrun. exact Hfs.
Qed.

Lemma main_dry_run_changes_no_file_witness :
  fs (fst (main {| args_directory := "d"; args_extensions := None;
                   args_exclude := [".git"]; args_dry_run := true |}
             (IsDirectory (DirTree ["a.txt"] []))
             (start {[ "d/a.txt" := file_of ["x"%byte; x0a] ]})))
  = fs (start {[ "d/a.txt" := file_of ["x"%byte; x0a] ]}).
Proof.
  apply (main_dry_run_changes_no_file
           {| args_directory := "d"; args_extensions := None;
              args_exclude := [".git"]; args_dry_run := true |}
           (IsDirectory (DirTree ["a.txt"] []))
           (start {[ "d/a.txt" := file_of ["x"%byte; x0a] ]})).
  reflexivity.
Defined.

Section SizeFacts.



End SizeFacts.

(** * The totals of an apply run against the files *)


